(** * Rule evaluation over JSON events: [plugins.Evaluate] and its helpers

    A shallow embedding of [src/plugins/cel.go]: the classifier
    [valueToCelType], the accessor functions [celExists], [safeString],
    [safeNum], [safeBool], and the pipeline [Evaluate].

    The file calls four libraries that are not part of the repository:
    encoding/json, gjson, cel-go and reflect.  Their data (JSON values, gjson
    results, CEL types and values, Go dynamic types) is modelled here as
    inductive types; their algorithms (the JSON grammar, the path query, the
    CEL checker and interpreter, float parsing) are the fields of the class
    [Libs], over which every general statement is quantified.  Module
    [Reference] gives one executable instance of [Libs], used to run the
    pipeline on concrete events. *)

From Stdlib Require Import PrimFloat Uint63 Ascii String ZArith.
From stdpp Require Import base option list strings pretty gmap.

Local Open Scope string_scope.
Local Open Scope list_scope.

(** ** Scanning text *)

Module Chars.

Definition chars : Type := list ascii.

Definition is_ws (c : ascii) : bool :=
  let n := nat_of_ascii c in
  (n =? 32)%nat || (n =? 9)%nat || (n =? 10)%nat || (n =? 13)%nat.

Fixpoint skip_ws (cs : chars) : chars :=
  match cs with
  | c :: r => if is_ws c then skip_ws r else cs
  | [] => []
  end.

Definition is_digit (c : ascii) : bool :=
  let n := nat_of_ascii c in (48 <=? n)%nat && (n <=? 57)%nat.

Definition digit_val (c : ascii) : Z := (Z.of_nat (nat_of_ascii c) - 48)%Z.

(** [strip p cs]: the rest of [cs] after the prefix [p]. *)
Fixpoint strip (p : string) (cs : chars) : option chars :=
  match p, cs with
  | EmptyString, _ => Some cs
  | String.String a p', c :: r => if Ascii.eqb a c then strip p' r else None
  | _, [] => None
  end.

Fixpoint span (f : ascii -> bool) (cs : chars) : chars * chars :=
  match cs with
  | c :: r => if f c then let '(a, b) := span f r in (c :: a, b) else ([], cs)
  | [] => ([], [])
  end.

Definition text (cs : chars) : string := string_of_list_ascii cs.

(** The number a run of decimal digits writes. *)
Definition decimal (ds : chars) : Z :=
  fold_left (fun acc c => acc * 10 + digit_val c)%Z ds 0%Z.

End Chars.

(** ** Go: dynamic types and values, as [interface{}] and reflect see them *)

Module Go.

(** The types a dynamic value can have.  [Defined] is a type declared with a
    name in some package; [Literal] stands for the remaining type literals
    (struct, array, channel, function, interface with methods), kept by the
    text reflect prints for them. *)
Inductive type : Set :=
| Bool | Int | Int8 | Int16 | Int32 | Int64
| Uint | Uint8 | Uint16 | Uint32 | Uint64 | Uintptr
| Float32 | Float64 | Complex64 | Complex128
| String
| Interface
| Slice (elem : type)
| Map (key elem : type)
| Pointer (elem : type)
| Defined (pkgPath pkgName name : string)
| Literal (repr : string).

Definition type_eq_dec (a b : type) : {a = b} + {a <> b}.
Proof. decide equality; apply string_dec. Defined.

#[global] Instance type_eq_decision : EqDecision type := type_eq_dec.

(** [reflect.Type.String]: the package of a defined type is printed by its
    name, not by its import path.  The package reflect documents it so: the
    string representation may use shortened package names (base64 instead
    of encoding/base64) and is not guaranteed to be unique among types. *)
Fixpoint type_String (t : type) : string :=
  match t with
  | Bool => "bool" | Int => "int" | Int8 => "int8" | Int16 => "int16"
  | Int32 => "int32" | Int64 => "int64"
  | Uint => "uint" | Uint8 => "uint8" | Uint16 => "uint16"
  | Uint32 => "uint32" | Uint64 => "uint64" | Uintptr => "uintptr"
  | Float32 => "float32" | Float64 => "float64"
  | Complex64 => "complex64" | Complex128 => "complex128"
  | String => "string"
  | Interface => "interface {}"
  | Slice e => "[]" ++ type_String e
  | Map k e => "map[" ++ type_String k ++ "]" ++ type_String e
  | Pointer e => "*" ++ type_String e
  | Defined _ pkgName name => pkgName ++ "." ++ name
  | Literal repr => repr
  end.

(** The signed and unsigned integer types and the floating-point types of the
    language. *)
Definition signed_integer (t : type) : bool :=
  match t with Int | Int8 | Int16 | Int32 | Int64 => true | _ => false end.

Definition unsigned_integer (t : type) : bool :=
  match t with
  | Uint | Uint8 | Uint16 | Uint32 | Uint64 | Uintptr => true
  | _ => false
  end.

Definition floating_point (t : type) : bool :=
  match t with Float32 | Float64 => true | _ => false end.

(** Only defined types, pointers to them and struct literals (through
    embedding) have methods. *)
Definition may_have_methods (t : type) : bool :=
  match t with
  | Defined _ _ _ | Pointer (Defined _ _ _) | Literal _ => true
  | _ => false
  end.

Definition time_Time : type := Defined "time" "time" "Time".

Definition structpb_Value : type :=
  Defined "google.golang.org/protobuf/types/known/structpb" "structpb" "Value".

(** A value held in an [interface{}].  The shapes encoding/json produces
    carry their data; of any other value only the dynamic type is kept. *)
#[warnings="-register-all"]
Inductive value :=
| Nil
| BoolV (b : bool)
| StringV (s : string)
| Float64V (f : float)
| SliceV (l : list value)
| MapV (m : gmap string value)
| Opaque (t : type).

(** [reflect.TypeOf]: [None] is the nil interface. *)
Definition TypeOf (v : value) : option type :=
  match v with
  | Nil => None
  | BoolV _ => Some Bool
  | StringV _ => Some String
  | Float64V _ => Some Float64
  | SliceV _ => Some (Slice Interface)
  | MapV _ => Some (Map String Interface)
  | Opaque t => Some t
  end.

(** The values encoding/json stores in an [interface{}]: nil, bool, float64,
    string, []interface{} and map[string]interface{}. *)
Definition decoded_shape (v : value) : bool :=
  match v with Opaque _ => false | _ => true end.

End Go.

(** ** cel-go: types, kinds and runtime values *)

Module Cel.

(** [*cel.Type], as built by the constructors the program uses. *)
Inductive type : Set :=
| BoolType | StringType | IntType | UintType | DoubleType | BytesType
| TimestampType | DurationType | NullType | DynType | ErrorType
| ListType (elem : type)
| MapType (key val : type)
| ObjectType (typeName : string).

Definition type_eq_dec (a b : type) : {a = b} + {a <> b}.
Proof. decide equality; apply string_dec. Defined.

#[global] Instance type_eq_decision : EqDecision type := type_eq_dec.

(** [types.Kind]: the tag of a type, its parameters left out. *)
Inductive Kind : Set :=
| BoolKind | StringKind | IntKind | UintKind | DoubleKind | BytesKind
| TimestampKind | DurationKind | NullTypeKind | DynKind | ErrorKind
| ListKind | MapKind | StructKind.

#[global] Instance Kind_eq_decision : EqDecision Kind.
Proof. solve_decision. Defined.

Definition type_Kind (t : type) : Kind :=
  match t with
  | BoolType => BoolKind | StringType => StringKind | IntType => IntKind
  | UintType => UintKind | DoubleType => DoubleKind | BytesType => BytesKind
  | TimestampType => TimestampKind | DurationType => DurationKind
  | NullType => NullTypeKind | DynType => DynKind | ErrorType => ErrorKind
  | ListType _ => ListKind | MapType _ _ => MapKind
  | ObjectType _ => StructKind
  end.

(** [ref.Val]: the runtime values of the interpreter.  Lists and maps wrap
    the Go value they were adapted from. *)
Inductive Val :=
| Bool (b : bool)
| String (s : string)
| Double (f : float)
| Int (i : Z)
| Uint (u : N)
| Bytes (b : string)
| Null
| List (l : list Go.value)
| MapVal (m : gmap string Go.value)
| Err (msg : string)
| Object (typeName : string).

(** [Val.Type()]: lists and maps report the dynamic list and map types. *)
Definition Val_Type (v : Val) : type :=
  match v with
  | Bool _ => BoolType | String _ => StringType | Double _ => DoubleType
  | Int _ => IntType | Uint _ => UintType | Bytes _ => BytesType
  | Null => NullType
  | List _ => ListType DynType
  | MapVal _ => MapType DynType DynType
  | Err _ => ErrorType
  | Object n => ObjectType n
  end.

(** The default type adapter ([NativeToValue]) on the values encoding/json
    produces; other values do not reach it in this program. *)
Definition NativeToValue (v : Go.value) : option Val :=
  match v with
  | Go.Nil => Some Null
  | Go.BoolV b => Some (Bool b)
  | Go.StringV s => Some (String s)
  | Go.Float64V f => Some (Double f)
  | Go.SliceV l => Some (List l)
  | Go.MapV m => Some (MapVal m)
  | Go.Opaque _ => None
  end.

(** What a Go function bound to an overload does when called: it returns a
    value, or a type assertion in it panics. *)
Inductive Outcome :=
| Returns (v : Val)
| Panics.

Inductive Binding :=
| UnaryBinding (f : Val -> Outcome)
| BinaryBinding (f : Val -> Val -> Outcome).

(** [cel.Overload(id, args, result, binding)]. *)
Record Overload := {
  overloadID : string;
  argTypes : list type;
  resultType : type;
  binding : Binding
}.

End Cel.

(** ** JSON values and their decoding by encoding/json *)

Module Json.

(** A JSON text, parsed (RFC 8259).  Numbers keep their literal; object
    members keep their order and their duplicates. *)
#[warnings="-register-all"]
Inductive value :=
| Null
| Bool (b : bool)
| Number (literal : string)
| String (s : string)
| Array (elems : list value)
| Object (members : list (string * value)).

Definition is_object (v : value) : bool :=
  match v with Object _ => true | _ => false end.

Definition is_null (v : value) : bool :=
  match v with Null => true | _ => false end.

(** Whether a parsed text is an object or the literal null. *)
Definition object_or_null (parsed : option value) : bool :=
  match parsed with
  | Some v => is_object v || is_null v
  | None => false
  end.

(** The first member of that name. *)
Fixpoint member (k : string) (ms : list (string * value)) : option value :=
  match ms with
  | [] => None
  | (k', v) :: r => if decide (k' = k) then Some v else member k r
  end.

(** The errors [json.Unmarshal] returns. *)
Inductive error :=
| SyntaxError
| UnmarshalTypeError.

Section Decode.

(** [strconv.ParseFloat(s, 64)]; [None] when it reports an error. *)
Variable ParseFloat : string -> option float.

(** Decoding into an [interface{}]: bool, float64, string, []interface{},
    map[string]interface{} or nil.  A later member of an object replaces an
    earlier one of the same name; a number float64 cannot hold fails. *)
Fixpoint to_interface (j : value) : option Go.value :=
  match j with
  | Null => Some Go.Nil
  | Bool b => Some (Go.BoolV b)
  | Number lit => Go.Float64V <$> ParseFloat lit
  | String s => Some (Go.StringV s)
  | Array l =>
      Go.SliceV <$>
        (fix elems (l : list value) : option (list Go.value) :=
           match l with
           | [] => Some []
           | x :: r =>
               match to_interface x, elems r with
               | Some v, Some vs => Some (v :: vs)
               | _, _ => None
               end
           end) l
  | Object ms =>
      Go.MapV <$>
        (fix members (ms : list (string * value)) (acc : gmap string Go.value)
           : option (gmap string Go.value) :=
           match ms with
           | [] => Some acc
           | (k, x) :: r =>
               match to_interface x with
               | Some v => members r (<[k := v]> acc)
               | None => None
               end
           end) ms ∅
  end.

(** Decoding the members of the top-level object into the map. *)
Fixpoint to_map (ms : list (string * value)) (acc : gmap string Go.value)
  : option (gmap string Go.value) :=
  match ms with
  | [] => Some acc
  | (k, x) :: r =>
      match to_interface x with
      | Some v => to_map r (<[k := v]> acc)
      | None => None
      end
  end.

(** [json.Unmarshal(data, &m)] for [var m map[string]interface{}], given the
    parsed text ([None]: the text is not JSON).  The package documents that
    the JSON null value unmarshals into a map by setting it to nil, without an
    error, and that a JSON value not appropriate for the target type gives an
    UnmarshalTypeError.  A nil map and an empty one are both [∅] here: the
    program only ranges over the map and hands it to the interpreter. *)
Definition Unmarshal_map (parsed : option value)
  : error + gmap string Go.value :=
  match parsed with
  | None => inl SyntaxError
  | Some Null => inr ∅
  | Some (Object ms) =>
      match to_map ms ∅ with
      | Some m => inr m
      | None => inl UnmarshalTypeError
      end
  | Some _ => inl UnmarshalTypeError
  end.

End Decode.

End Json.

(** ** gjson: the result of a path query *)

Module Gjson.

(** [gjson.Type]. *)
Inductive ValueType : Set := Null | False_ | Number | String | True_ | JSON.

#[global] Instance ValueType_eq_decision : EqDecision ValueType.
Proof. solve_decision. Defined.

(** [gjson.Result] (the index fields are not read by the program). *)
Record Result := {
  Type_ : ValueType;
  Raw : string;
  Str : string;
  Num : float
}.

(** The zero [Result]: what [Get] returns when it finds nothing. *)
Definition missing : Result :=
  {| Type_ := Null; Raw := ""; Str := ""; Num := PrimFloat.zero |}.

Definition Exists (t : Result) : bool :=
  negb (bool_decide (Type_ t = Null)) || negb (String.length (Raw t) =? 0)%nat.

Definition IsBool (t : Result) : bool :=
  bool_decide (Type_ t = True_) || bool_decide (Type_ t = False_).

(** [strings.ToLower] on ASCII letters. *)
Definition lower (c : ascii) : ascii :=
  let n := nat_of_ascii c in
  if (65 <=? n)%nat && (n <=? 90)%nat then ascii_of_nat (n + 32) else c.

Fixpoint ToLower (s : string) : string :=
  match s with
  | EmptyString => EmptyString
  | String.String c r => String.String (lower c) (ToLower r)
  end.

(** [strconv.ParseBool], its error dropped (an unknown word gives false). *)
Definition ParseBool (s : string) : bool :=
  if decide (s = "1") then true else
  if decide (s = "t") then true else
  if decide (s = "T") then true else
  if decide (s = "TRUE") then true else
  if decide (s = "true") then true else
  if decide (s = "True") then true else false.

Definition Bool (t : Result) : bool :=
  match Type_ t with
  | True_ => true
  | String => ParseBool (ToLower (Str t))
  | Number => negb (PrimFloat.eqb (Num t) PrimFloat.zero)
  | _ => false
  end.

Section Strconv.

Variable ParseFloat : string -> option float.
Variable FormatFloat : float -> string.

Definition Float (t : Result) : float :=
  match Type_ t with
  | True_ => PrimFloat.one
  | String => default PrimFloat.zero (ParseFloat (Str t))
  | Number => Num t
  | _ => PrimFloat.zero
  end.

(** Whether a raw number is an optional minus sign and digits only. *)
Fixpoint digits_only (s : string) : bool :=
  match s with
  | EmptyString => true
  | String.String c r =>
      let n := nat_of_ascii c in
      (48 <=? n)%nat && (n <=? 57)%nat && digits_only r
  end.

Definition String_ (t : Result) : string :=
  match Type_ t with
  | Null => ""
  | False_ => "false"
  | True_ => "true"
  | String => Str t
  | JSON => Raw t
  | Number =>
      match Raw t with
      | EmptyString => FormatFloat (Num t)
      | String.String c r =>
          let body := if Ascii.eqb c "-" then r else Raw t in
          if digits_only body then Raw t else FormatFloat (Num t)
      end
  end.

End Strconv.

End Gjson.

(** ** catcher: the structured errors [Evaluate] returns *)

Module Catcher.

Inductive Cause :=
| FromJson (e : Json.error)
| FromCel (message : string).

Inductive Arg :=
| Text (s : string)
| Issues (errors : list string).

(** Modelled from the spec: package catcher of this repository is not among
    the sources.  [catcher.Error(msg, cause, args)] is kept as the record of
    its three arguments (the spec: it "attaches structured context
    (expression text, list of issues)"); a [nil] cause is [None]. *)
Record Error := {
  msg : string;
  cause : option Cause;
  args : gmap string Arg
}.

End Catcher.

(** ** The libraries the program calls *)

Class Libs := {
  (** strconv *)
  strconv_ParseFloat : string -> option float;
  strconv_FormatFloat : float -> string;
  (** encoding/json: the grammar of JSON texts *)
  json_parse : string -> option Json.value;
  (** gjson.Get(json, path) *)
  gjson_Get : string -> string -> Gjson.Result;
  (** the method sets of the program's types: which implement proto.Message *)
  has_ProtoReflect : Go.type -> bool;
  (** the order in which a range statement visits a map: any order *)
  range : gmap string Go.value -> list (string * Go.value);
  range_perm : forall m, range m ≡ₚ map_to_list m;
  (** cel-go; its errors and issues are kept by their message *)
  EnvOption : Type;
  cel_Function : string -> list Cel.Overload -> EnvOption;
  cel_Variable : string -> Cel.type -> EnvOption;
  Env : Type;
  Ast : Type;
  Issues : Type;
  Prg : Type;
  cel_NewEnv : list EnvOption -> string + Env;
  Env_Compile : Env -> string -> Ast * option Issues;
  Issues_Err : Issues -> option string;
  Issues_Errors : Issues -> list string;
  Env_Program : Env -> Ast -> string + Prg;
  Prg_Eval : Prg -> gmap string Go.value -> string + Cel.Val
}.

(** ** Runs: the library calls a function makes, and what it returns *)

Module Run.

Section Run.

Context {Call R : Type}.

(** A computation that has made some calls and either already returned from
    the enclosing function ([inl]) or holds a value ([inr]). *)
Definition t (A : Type) : Type := list Call * (R + A).

Definition ret {A} (a : A) : t A := ([], inr a).

Definition Return {A} (r : R) : t A := ([], inl r).

Definition call {A} (c : Call) (a : A) : t A := ([c], inr a).

Definition bind {A B} (m : t A) (k : A -> t B) : t B :=
  match m with
  | (calls, inl r) => (calls, inl r)
  | (calls, inr a) => let '(calls', x) := k a in (calls ++ calls', x)
  end.

(** The function body ends with a return statement on every path. *)
Definition run (m : t R) : list Call * R :=
  match m with
  | (calls, inl r) | (calls, inr r) => (calls, r)
  end.

End Run.

End Run.

Notation "x <- c ;; k" := (Run.bind c (fun x => k))
  (at level 100, c at next level, right associativity).

(** ** plugins: the program *)

Section Plugins.

Context `{Libs}.

Import Cel.

(** The type switch of [valueToCelType] selects on the dynamic type. *)
Definition is_type (value : Go.value) (t : Go.type) : bool :=
  bool_decide (Go.TypeOf value = Some t).

(** [case proto.Message]: the dynamic type implements the interface. *)
Definition is_proto_Message (value : Go.value) : bool :=
  match Go.TypeOf value with
  | Some t => Go.may_have_methods t && has_ProtoReflect t
  | None => false
  end.

Definition valueToCelType (value : Go.value) : Cel.type :=
  if is_type value Go.Bool then BoolType
  else if is_type value Go.String then StringType
  else if is_type value Go.Int || is_type value Go.Int32
          || is_type value Go.Int64 then IntType
  else if is_type value Go.Uint || is_type value Go.Uint32
          || is_type value Go.Uint64 then UintType
  else if is_type value Go.Float32 || is_type value Go.Float64 then DoubleType
  else if is_type value (Go.Slice Go.Uint8) then BytesType
  else if is_type value Go.time_Time then TimestampType
  else if is_type value (Go.Map Go.String Go.Interface)
       then MapType StringType DynType
  else if is_type value (Go.Map Go.String (Go.Pointer Go.structpb_Value))
       then MapType StringType DynType
  else if is_type value (Go.Slice Go.Interface) then ListType DynType
  else if bool_decide (Go.TypeOf value = None) then NullType
  else if is_proto_Message value then DynType
  else match Go.TypeOf value with
       | Some t => ObjectType (Go.type_String t)
       | None => NullType
       end.

(** The function bound to [exists]: [key.Value().(string)] panics on a key
    that is not a string. *)
Definition celExists_binding (s : string) (key : Val) : Outcome :=
  match key with
  | String k =>
      let v := gjson_Get s k in
      Returns (Bool (Gjson.Exists v))
  | _ => Panics
  end.

Definition celExists (s : string) : EnvOption :=
  cel_Function "exists"
    [ {| overloadID := "string_exists_bool";
         argTypes := [StringType]; resultType := BoolType;
         binding := UnaryBinding (celExists_binding s) |} ].

Definition safeString_binding (s : string) (key def : Val) : Outcome :=
  match key with
  | String k =>
      let v := gjson_Get s k in
      if Gjson.Exists v && bool_decide (Gjson.Type_ v = Gjson.String)
      then Returns (String (Gjson.String_ strconv_FormatFloat v))
      else Returns def
  | _ => Panics
  end.

Definition safeString (s : string) : EnvOption :=
  cel_Function "safe"
    [ {| overloadID := "string_string_safe_string";
         argTypes := [StringType; StringType]; resultType := StringType;
         binding := BinaryBinding (safeString_binding s) |} ].

Definition safeNum_binding (s : string) (key def : Val) : Outcome :=
  match key with
  | String k =>
      let v := gjson_Get s k in
      if Gjson.Exists v && bool_decide (Gjson.Type_ v = Gjson.Number)
      then Returns (Double (Gjson.Float strconv_ParseFloat v))
      else Returns def
  | _ => Panics
  end.

Definition safeNum (s : string) : EnvOption :=
  cel_Function "safe"
    [ {| overloadID := "string_num_safe_num";
         argTypes := [StringType; DoubleType]; resultType := DoubleType;
         binding := BinaryBinding (safeNum_binding s) |} ].

Definition safeBool_binding (s : string) (key def : Val) : Outcome :=
  match key with
  | String k =>
      let v := gjson_Get s k in
      if Gjson.Exists v && Gjson.IsBool v
      then Returns (Bool (Gjson.Bool v))
      else Returns def
  | _ => Panics
  end.

Definition safeBool (s : string) : EnvOption :=
  cel_Function "safe"
    [ {| overloadID := "string_bool_safe_bool";
         argTypes := [StringType; BoolType]; resultType := BoolType;
         binding := BinaryBinding (safeBool_binding s) |} ].

(** The library calls of [Evaluate], in the order they are made. *)
Inductive Call :=
| Call_Unmarshal (data : string)
| Call_NewEnv (opts : list EnvOption)
| Call_Compile (env : Env) (expression : string)
| Call_Program (env : Env) (ast : Ast)
| Call_Eval (prg : Prg) (vars : gmap string Go.value).

(** What [Evaluate] hands back: its two return values, or the panic of the
    assertion [out.Value().(bool)]. *)
Inductive Returned :=
| Return_ (matched : bool) (err : option Catcher.Error)
| Panic.

(** The two return values. *)
Definition matched_of (r : Returned) : option bool :=
  match r with Return_ b _ => Some b | Panic => None end.

Definition error_of (r : Returned) : option Catcher.Error :=
  match r with Return_ _ e => e | Panic => None end.

Definition catcher_Error (msg : string) (cause : option Catcher.Cause)
    (args : gmap string Catcher.Arg) : option Catcher.Error :=
  Some {| Catcher.msg := msg; Catcher.cause := cause; Catcher.args := args |}.

(** [json.Unmarshal([]byte(data), &valuesMap)]. *)
Definition json_Unmarshal (data : string)
  : Json.error + gmap string Go.value :=
  Json.Unmarshal_map strconv_ParseFloat (json_parse data).

Definition Evaluate_body (data : option string) (expression : string)
    (envOption : list EnvOption) : Run.t (Call := Call) Returned :=
  s <- match data with
       | None => Run.Return (Return_ false (catcher_Error "data is nil" None ∅))
       | Some s => Run.ret s
       end ;;
  r <- Run.call (Call_Unmarshal s) (json_Unmarshal s) ;;
  valuesMap <- match r with
       | inl err =>
           Run.Return (Return_ false
             (catcher_Error "cannot unmarshal data"
                (Some (Catcher.FromJson err)) ∅))
       | inr m => Run.ret m
       end ;;
  let envOptions := [celExists s; safeBool s; safeString s; safeNum s] in
  let envOptions := envOptions ++ envOption in
  let envOptions :=
    fold_left (fun acc kv => acc ++ [cel_Variable kv.1 (valueToCelType kv.2)])
      (range valuesMap) envOptions in
  r <- Run.call (Call_NewEnv envOptions) (cel_NewEnv envOptions) ;;
  celEnv <- match r with
       | inl err =>
           Run.Return (Return_ false
             (catcher_Error "failed to start CEL environment"
                (Some (Catcher.FromCel err)) ∅))
       | inr e => Run.ret e
       end ;;
  r <- Run.call (Call_Compile celEnv expression)
         (Env_Compile celEnv expression) ;;
  ast <- match r with
       | (ast, Some issues) =>
           match Issues_Err issues with
           | Some _ =>
               Run.Return (Return_ false
                 (catcher_Error "failed to compile expression" None
                    {[ "expression" := Catcher.Text expression;
                       "issues" := Catcher.Issues (Issues_Errors issues) ]}))
           | None => Run.ret ast
           end
       | (ast, None) => Run.ret ast
       end ;;
  r <- Run.call (Call_Program celEnv ast) (Env_Program celEnv ast) ;;
  prg <- match r with
       | inl err =>
           Run.Return (Return_ false
             (catcher_Error "failed to create program"
                (Some (Catcher.FromCel err))
                {[ "expression" := Catcher.Text expression ]}))
       | inr p => Run.ret p
       end ;;
  r <- Run.call (Call_Eval prg valuesMap) (Prg_Eval prg valuesMap) ;;
  out <- match r with
       | inl err =>
           Run.Return (Return_ false
             (catcher_Error "failed to evaluate program"
                (Some (Catcher.FromCel err))
                {[ "expression" := Catcher.Text expression ]}))
       | inr v => Run.ret v
       end ;;
  if bool_decide (Val_Type out = BoolType) then
    match out with
    | Bool b => Run.ret (Return_ b None)
    | _ => Run.ret Panic
    end
  else
    Run.ret (Return_ false
      (catcher_Error "output type is not boolean" None
         {[ "expression" := Catcher.Text expression ]})).

Definition Evaluate (data : option string) (expression : string)
    (envOption : list EnvOption) : list Call * Returned :=
  Run.run (Evaluate_body data expression envOption).

End Plugins.

(** ** A reference instance of the libraries

    Executable stand-ins, written after the libraries' documentation, for
    running the pipeline on concrete events.  Each covers a fragment: JSON
    texts whose numbers are short decimals and whose strings have no
    surrogate escapes; paths made of plain keys and indices separated by
    dots; boolean, string and numeric CEL expressions without macros. *)

Module Reference.

Import Chars.

Definition dquote : ascii := ascii_of_nat 34.

(** Events are written with apostrophes where JSON has double quotes. *)
Fixpoint json_text (s : string) : string :=
  match s with
  | EmptyString => EmptyString
  | String.String c r =>
      String.String (if Ascii.eqb c "'" then dquote else c) (json_text r)
  end.

(** *** JSON texts *)

Definition hex_val (c : ascii) : option Z :=
  let n := nat_of_ascii c in
  if (48 <=? n)%nat && (n <=? 57)%nat then Some (Z.of_nat n - 48)%Z
  else if (97 <=? n)%nat && (n <=? 102)%nat then Some (Z.of_nat n - 87)%Z
  else if (65 <=? n)%nat && (n <=? 70)%nat then Some (Z.of_nat n - 55)%Z
  else None.

Definition byte (z : Z) : ascii := ascii_of_nat (Z.to_nat z).

(** UTF-8 of a code point of the basic plane; surrogates are left out. *)
Definition utf8 (cp : Z) : option chars :=
  if (cp <? 128)%Z then Some [byte cp]
  else if (cp <? 2048)%Z then
    Some [byte (192 + cp / 64)%Z; byte (128 + cp mod 64)%Z]
  else if (55296 <=? cp)%Z && (cp <=? 57343)%Z then None
  else Some [byte (224 + cp / 4096)%Z; byte (128 + (cp / 64) mod 64)%Z;
             byte (128 + cp mod 64)%Z].

(** The characters of a string literal after its opening quote. *)
Fixpoint string_body (cs : chars) : option (chars * chars) :=
  match cs with
  | [] => None
  | c :: r =>
      if Ascii.eqb c dquote then Some ([], r)
      else if (nat_of_ascii c <? 32)%nat then None
      else if Ascii.eqb c "\" then
        match r with
        | e :: r' =>
            let simple (x : ascii) :=
              match string_body r' with
              | Some (s, rest) => Some (x :: s, rest)
              | None => None
              end in
            if Ascii.eqb e dquote then simple dquote
            else if Ascii.eqb e "\" then simple "\"%char
            else if Ascii.eqb e "/" then simple "/"%char
            else if Ascii.eqb e "b" then simple (ascii_of_nat 8)
            else if Ascii.eqb e "f" then simple (ascii_of_nat 12)
            else if Ascii.eqb e "n" then simple (ascii_of_nat 10)
            else if Ascii.eqb e "r" then simple (ascii_of_nat 13)
            else if Ascii.eqb e "t" then simple (ascii_of_nat 9)
            else if Ascii.eqb e "u" then
              match r' with
              | a :: b :: c' :: d :: r'' =>
                  match hex_val a, hex_val b, hex_val c', hex_val d,
                        string_body r'' with
                  | Some x, Some y, Some z, Some w, Some (s, rest) =>
                      match utf8 (((x * 16 + y) * 16 + z) * 16 + w)%Z with
                      | Some bytes => Some (bytes ++ s, rest)
                      | None => None
                      end
                  | _, _, _, _, _ => None
                  end
              | _ => None
              end
            else None
        | [] => None
        end
      else
        match string_body r with
        | Some (s, rest) => Some (c :: s, rest)
        | None => None
        end
  end.

(** A number literal: an optional minus sign, an integer part without a
    leading zero, an optional fraction and an optional exponent. *)
Definition number_literal (cs : chars) : option (chars * chars) :=
  let '(sign, r) :=
    match cs with
    | c :: r => if Ascii.eqb c "-" then ([c], r) else ([], cs)
    | [] => ([], cs)
    end in
  let '(int, r) := span is_digit r in
  match int with
  | [] => None
  | d :: more =>
      if Ascii.eqb d "0" && negb (bool_decide (more = [])) then None
      else
        let frac :=
          match r with
          | c :: r' =>
              if Ascii.eqb c "." then
                let '(ds, r'') := span is_digit r' in
                match ds with
                | [] => None
                | _ => Some (c :: ds, r'')
                end
              else Some ([], r)
          | [] => Some ([], r)
          end in
        match frac with
        | None => None
        | Some (fr, r) =>
            let exp :=
              match r with
              | c :: r' =>
                  if Ascii.eqb c "e" || Ascii.eqb c "E" then
                    let '(sg, r'') :=
                      match r' with
                      | s :: t =>
                          if Ascii.eqb s "+" || Ascii.eqb s "-"
                          then ([s], t) else ([], r')
                      | [] => ([], r')
                      end in
                    let '(ds, r''') := span is_digit r'' in
                    match ds with
                    | [] => None
                    | _ => Some (c :: sg ++ ds, r''')
                    end
                  else Some ([], r)
              | [] => Some ([], r)
              end in
            match exp with
            | None => None
            | Some (ex, r) => Some (sign ++ int ++ fr ++ ex, r)
            end
        end
  end.

Fixpoint value (fuel : nat) (cs : chars) : option (Json.value * chars) :=
  match fuel with
  | O => None
  | S fuel =>
      let cs := skip_ws cs in
      match strip "null" cs, strip "true" cs, strip "false" cs with
      | Some r, _, _ => Some (Json.Null, r)
      | _, Some r, _ => Some (Json.Bool true, r)
      | _, _, Some r => Some (Json.Bool false, r)
      | _, _, _ =>
          match cs with
          | [] => None
          | c :: r =>
              if Ascii.eqb c dquote then
                match string_body r with
                | Some (s, rest) => Some (Json.String (text s), rest)
                | None => None
                end
              else if Ascii.eqb c "[" then
                match strip "]" (skip_ws r) with
                | Some rest => Some (Json.Array [], rest)
                | None =>
                    match elements fuel r with
                    | Some (l, rest) => Some (Json.Array l, rest)
                    | None => None
                    end
                end
              else if Ascii.eqb c "{" then
                match strip "}" (skip_ws r) with
                | Some rest => Some (Json.Object [], rest)
                | None =>
                    match members fuel r with
                    | Some (l, rest) => Some (Json.Object l, rest)
                    | None => None
                    end
                end
              else
                match number_literal cs with
                | Some (lit, rest) => Some (Json.Number (text lit), rest)
                | None => None
                end
          end
      end
  end
with elements (fuel : nat) (cs : chars) : option (list Json.value * chars) :=
  match fuel with
  | O => None
  | S fuel =>
      match value fuel cs with
      | Some (v, r) =>
          match skip_ws r with
          | c :: r' =>
              if Ascii.eqb c "]" then Some ([v], r')
              else if Ascii.eqb c "," then
                match elements fuel r' with
                | Some (l, rest) => Some (v :: l, rest)
                | None => None
                end
              else None
          | [] => None
          end
      | None => None
      end
  end
with members (fuel : nat) (cs : chars)
  : option (list (string * Json.value) * chars) :=
  match fuel with
  | O => None
  | S fuel =>
      match skip_ws cs with
      | q :: r =>
          if Ascii.eqb q dquote then
            match string_body r with
            | Some (k, r) =>
                match skip_ws r with
                | c :: r =>
                    if Ascii.eqb c ":" then
                      match value fuel r with
                      | Some (v, r) =>
                          match skip_ws r with
                          | c :: r' =>
                              if Ascii.eqb c "}" then Some ([(text k, v)], r')
                              else if Ascii.eqb c "," then
                                match members fuel r' with
                                | Some (l, rest) => Some ((text k, v) :: l, rest)
                                | None => None
                                end
                              else None
                          | [] => None
                          end
                      | None => None
                      end
                    else None
                | [] => None
                end
            | None => None
            end
          else None
      | [] => None
      end
  end.

(** A JSON text is one value with blanks around it. *)
Definition parse (s : string) : option Json.value :=
  let cs := list_ascii_of_string s in
  match value (2 * length cs + 2) cs with
  | Some (v, r) => match skip_ws r with [] => Some v | _ => None end
  | None => None
  end.

(** *** strconv *)

Definition float_of_Z (z : Z) : float := PrimFloat.of_uint63 (Uint63.of_Z z).

(** [strconv.ParseFloat] on decimal literals whose digits stay below 2^53
    and whose decimal exponent is at most 18 in size: there one multiplication
    or division of exact operands gives the correctly rounded value.  Other
    texts are reported as errors by this instance. *)
Definition ParseFloat (s : string) : option float :=
  let cs := list_ascii_of_string s in
  match number_literal cs with
  | Some (_, []) =>
      let '(neg, r) :=
        match cs with
        | c :: r => if Ascii.eqb c "-" then (true, r) else (false, cs)
        | [] => (false, cs)
        end in
      let '(int, r) := span is_digit r in
      let '(frac, r) :=
        match r with
        | c :: r' => if Ascii.eqb c "." then span is_digit r' else ([], r)
        | [] => ([], r)
        end in
      let exp :=
        match r with
        | _ :: s :: t =>
            if Ascii.eqb s "-" then (- decimal t)%Z
            else if Ascii.eqb s "+" then decimal t
            else decimal (s :: t)
        | _ => 0%Z
        end in
      let m := decimal (int ++ frac) in
      let e := (exp - Z.of_nat (length frac))%Z in
      if (m <? 2 ^ 53)%Z && (-18 <=? e)%Z && (e <=? 18)%Z then
        let f := float_of_Z m in
        let p := float_of_Z (10 ^ Z.abs e) in
        let f := if (0 <=? e)%Z then PrimFloat.mul f p else PrimFloat.div f p in
        Some (if neg then PrimFloat.opp f else f)
      else None
  | _ => None
  end.

(** [strconv.FormatFloat(f, 'f', -1, 64)] on whole numbers below 2^53; the
    empty text elsewhere. *)
Definition FormatFloat (f : float) : string :=
  let a := PrimFloat.abs f in
  let '(m, e) := PrimFloat.frshiftexp a in
  let mant := Uint63.to_Z (PrimFloat.normfr_mantissa m) in
  let exp := (Uint63.to_Z e - 2101 - 53)%Z in
  let sign := if PrimFloat.ltb f PrimFloat.zero then "-" else "" in
  if PrimFloat.eqb a PrimFloat.zero then "0"
  else if (exp <=? 0)%Z && (-53 <? exp)%Z
          && (mant mod 2 ^ (- exp) =? 0)%Z then
    sign ++ pretty (mant / 2 ^ (- exp))%Z
  else "".

(** *** gjson *)

Definition quote (s : string) : string :=
  String.String dquote
    (text (flat_map (fun c =>
             if Ascii.eqb c dquote || Ascii.eqb c "\" then ["\"%char; c]
             else [c]) (list_ascii_of_string s)))
  ++ String.String dquote "".

Definition join (parts : list string) : string :=
  match parts with
  | [] => ""
  | p :: r => fold_left (fun acc x : string => (acc ++ "," ++ x)%string) r p
  end.

(** The compact text of a value, standing for its raw text. *)
Fixpoint render (v : Json.value) : string :=
  match v with
  | Json.Null => "null"
  | Json.Bool true => "true"
  | Json.Bool false => "false"
  | Json.Number lit => lit
  | Json.String s => quote s
  | Json.Array l => "[" ++ join (map render l) ++ "]"
  | Json.Object ms =>
      "{" ++ join (map (fun kv => (quote kv.1 ++ ":" ++ render kv.2)%string) ms)
          ++ "}"
  end.

Definition result_of (v : Json.value) : Gjson.Result :=
  match v with
  | Json.Null =>
      {| Gjson.Type_ := Gjson.Null; Gjson.Raw := "null";
         Gjson.Str := ""; Gjson.Num := PrimFloat.zero |}
  | Json.Bool true =>
      {| Gjson.Type_ := Gjson.True_; Gjson.Raw := "true";
         Gjson.Str := ""; Gjson.Num := PrimFloat.zero |}
  | Json.Bool false =>
      {| Gjson.Type_ := Gjson.False_; Gjson.Raw := "false";
         Gjson.Str := ""; Gjson.Num := PrimFloat.zero |}
  | Json.Number lit =>
      {| Gjson.Type_ := Gjson.Number; Gjson.Raw := lit;
         Gjson.Str := ""; Gjson.Num := default PrimFloat.zero (ParseFloat lit) |}
  | Json.String s =>
      {| Gjson.Type_ := Gjson.String; Gjson.Raw := quote s;
         Gjson.Str := s; Gjson.Num := PrimFloat.zero |}
  | Json.Array _ | Json.Object _ =>
      {| Gjson.Type_ := Gjson.JSON; Gjson.Raw := render v;
         Gjson.Str := ""; Gjson.Num := PrimFloat.zero |}
  end.

(** A gjson path is a series of keys separated by dots, and an array element
    is addressed by its index as a key ([children.1]).  Brackets, like every
    other character here, belong to the key. *)
Fixpoint split_dots (cs : chars) (cur : chars) : list string :=
  match cs with
  | [] => [text (rev cur)]
  | c :: r =>
      if Ascii.eqb c "." then text (rev cur) :: split_dots r []
      else split_dots r (c :: cur)
  end.

Definition index (k : string) : option nat :=
  let cs := list_ascii_of_string k in
  match cs with
  | [] => None
  | _ => if forallb is_digit cs then Some (Z.to_nat (decimal cs)) else None
  end.

Fixpoint descend (path : list string) (v : Json.value) : option Json.value :=
  match path with
  | [] => Some v
  | k :: rest =>
      match v with
      | Json.Object ms =>
          match Json.member k ms with
          | Some x => descend rest x
          | None => None
          end
      | Json.Array l =>
          match index k with
          | Some i =>
              match l !! i with
              | Some x => descend rest x
              | None => None
              end
          | None => None
          end
      | _ => None
      end
  end.

Definition Get (json path : string) : Gjson.Result :=
  match parse json with
  | Some v =>
      match descend (split_dots (list_ascii_of_string path) []) v with
      | Some x => result_of x
      | None => Gjson.missing
      end
  | None => Gjson.missing
  end.

(** *** cel-go: declarations *)

Record Environ := {
  variables : list (string * Cel.type);
  functions : list (string * Cel.Overload)
}.

(** An option is a function over the environment under construction. *)
Definition EnvOpt : Type := Environ -> string + Environ.

(** [cel.Variable(name, t)] appends a declaration; it does not look for an
    earlier one of that name. *)
Definition Variable_ (name : string) (t : Cel.type) : EnvOpt :=
  fun e => inr {| variables := variables e ++ [(name, t)];
                  functions := functions e |}.

Definition same_signature (a b : Cel.Overload) : bool :=
  bool_decide (Cel.argTypes a = Cel.argTypes b)
  && bool_decide (Cel.resultType a = Cel.resultType b).

Fixpoint add_overloads (name : string) (os : list Cel.Overload)
    (fs : list (string * Cel.Overload)) : string + list (string * Cel.Overload) :=
  match os with
  | [] => inr fs
  | o :: r =>
      if existsb (fun f => bool_decide (f.1 = name)
                           && bool_decide (Cel.overloadID f.2 = Cel.overloadID o)
                           && negb (same_signature f.2 o)) fs
      then inl ("overload redefinition in function. " +:+ name)
      else add_overloads name r (fs ++ [(name, o)])
  end.

(** [cel.Function(name, overloads...)] merges the overloads into the
    function of that name. *)
Definition Function_ (name : string) (os : list Cel.Overload) : EnvOpt :=
  fun e =>
    match add_overloads name os (functions e) with
    | inl m => inl m
    | inr fs => inr {| variables := variables e; functions := fs |}
    end.

(** [cel.NewEnv(opts...)] applies the options in order. *)
Definition NewEnv (opts : list EnvOpt) : string + Environ :=
  fold_left (fun acc opt => match acc with inr e => opt e | inl m => inl m end)
    opts (inr {| variables := []; functions := [] |}).

Fixpoint lookup_decl (x : string) (scope : list (string * Cel.type))
  : option Cel.type :=
  match scope with
  | [] => None
  | (y, t) :: r => if decide (y = x) then Some t else lookup_decl x r
  end.

(** The checker's scope: the declared variables are added one by one
    ([checker.Env.AddIdents]: if there are overlapping declarations, the
    method will error).  A name already in scope is an overlapping identifier
    unless the two declarations are equivalent. *)
Fixpoint add_idents (decls scope : list (string * Cel.type))
  : list string * list (string * Cel.type) :=
  match decls with
  | [] => ([], scope)
  | (x, t) :: r =>
      match lookup_decl x scope with
      | Some t' =>
          let '(errs, sc) := add_idents r scope in
          if decide (t' = t) then (errs, sc)
          else (("overlapping identifier for name '" +:+ x +:+ "'") :: errs, sc)
      | None => add_idents r (scope ++ [(x, t)])
      end
  end.

Definition initChecker (e : Environ) : string + list (string * Cel.type) :=
  match add_idents (variables e) [] with
  | ([], scope) => inr scope
  | (errs, _) => inl (join errs)
  end.

(** *** cel-go: expressions *)

Inductive binop := OpOr | OpAnd | OpEq | OpNe | OpAdd.

#[warnings="-register-all"]
Inductive expr :=
| Lit (v : Cel.Val)
| Ident (x : string)
| Apply (f : string) (args : list expr)
| Not (e : expr)
| Binary (op : binop) (a b : expr).

Inductive token :=
| TTrue | TFalse | TIdent (x : string) | TString (s : string)
| TInt (i : Z) | TDouble (f : float)
| TLParen | TRParen | TComma | TBang | TOp (op : binop).

Definition is_ident_start (c : ascii) : bool :=
  let n := nat_of_ascii c in
  ((65 <=? n)%nat && (n <=? 90)%nat) || ((97 <=? n)%nat && (n <=? 122)%nat)
  || (n =? 95)%nat.

Definition is_ident_char (c : ascii) : bool := is_ident_start c || is_digit c.

Fixpoint tokens (fuel : nat) (cs : chars) : option (list token) :=
  match fuel with
  | O => None
  | S fuel =>
      match skip_ws cs with
      | [] => Some []
      | c :: r =>
          let one (t : token) (rest : chars) := cons t <$> tokens fuel rest in
          if Ascii.eqb c "(" then one TLParen r
          else if Ascii.eqb c ")" then one TRParen r
          else if Ascii.eqb c "," then one TComma r
          else if Ascii.eqb c "+" then one (TOp OpAdd) r
          else if Ascii.eqb c "!" then
            match r with
            | d :: r' => if Ascii.eqb d "=" then one (TOp OpNe) r' else one TBang r
            | [] => one TBang r
            end
          else if Ascii.eqb c "=" then
            match strip "=" r with Some r' => one (TOp OpEq) r' | None => None end
          else if Ascii.eqb c "&" then
            match strip "&" r with Some r' => one (TOp OpAnd) r' | None => None end
          else if Ascii.eqb c "|" then
            match strip "|" r with Some r' => one (TOp OpOr) r' | None => None end
          else if Ascii.eqb c "'" || Ascii.eqb c dquote then
            let '(body, rest) :=
              span (fun x => negb (Ascii.eqb x c || Ascii.eqb x "\")) r in
            match rest with
            | q :: rest' =>
                if Ascii.eqb q c then one (TString (text body)) rest' else None
            | [] => None
            end
          else if is_digit c then
            let '(int, rest) := span is_digit (c :: r) in
            match rest with
            | d :: rest' =>
                if Ascii.eqb d "." then
                  let '(frac, rest'') := span is_digit rest' in
                  match ParseFloat (text (int ++ d :: frac)) with
                  | Some f => one (TDouble f) rest''
                  | None => None
                  end
                else one (TInt (decimal int)) rest
            | [] => one (TInt (decimal int)) rest
            end
          else if is_ident_start c then
            let '(name, rest) := span is_ident_char (c :: r) in
            let x := text name in
            if decide (x = "true") then one TTrue rest
            else if decide (x = "false") then one TFalse rest
            else one (TIdent x) rest
          else None
      end
  end.

Definition binop_at (level : nat) (t : token) : option binop :=
  match level, t with
  | 0, TOp OpOr => Some OpOr
  | 1, TOp OpAnd => Some OpAnd
  | 2, TOp OpEq => Some OpEq
  | 2, TOp OpNe => Some OpNe
  | 3, TOp OpAdd => Some OpAdd
  | _, _ => None
  end.

(** Precedence climbing: [||], [&&], relations, [+], then unary and primary
    expressions. *)
Fixpoint p_level (fuel level : nat) (ts : list token) {struct fuel}
  : option (expr * list token) :=
  match fuel with
  | O => None
  | S fuel =>
      if (4 <=? level)%nat then p_unary fuel ts
      else
        match p_level fuel (S level) ts with
        | Some (lhs, r) => p_tail fuel level lhs r
        | None => None
        end
  end
with p_tail (fuel level : nat) (lhs : expr) (ts : list token) {struct fuel}
  : option (expr * list token) :=
  match fuel with
  | O => None
  | S fuel =>
      match ts with
      | t :: r =>
          match binop_at level t with
          | Some op =>
              match p_level fuel (S level) r with
              | Some (rhs, r') => p_tail fuel level (Binary op lhs rhs) r'
              | None => None
              end
          | None => Some (lhs, ts)
          end
      | [] => Some (lhs, [])
      end
  end
with p_unary (fuel : nat) (ts : list token) {struct fuel}
  : option (expr * list token) :=
  match fuel with
  | O => None
  | S fuel =>
      match ts with
      | TBang :: r =>
          match p_unary fuel r with
          | Some (e, r') => Some (Not e, r')
          | None => None
          end
      | TTrue :: r => Some (Lit (Cel.Bool true), r)
      | TFalse :: r => Some (Lit (Cel.Bool false), r)
      | TString s :: r => Some (Lit (Cel.String s), r)
      | TInt i :: r => Some (Lit (Cel.Int i), r)
      | TDouble f :: r => Some (Lit (Cel.Double f), r)
      | TIdent x :: TLParen :: TRParen :: r => Some (Apply x [], r)
      | TIdent x :: TLParen :: r =>
          match p_args fuel r with
          | Some (args, r') => Some (Apply x args, r')
          | None => None
          end
      | TIdent x :: r => Some (Ident x, r)
      | TLParen :: r =>
          match p_level fuel 0 r with
          | Some (e, TRParen :: r') => Some (e, r')
          | _ => None
          end
      | _ => None
      end
  end
with p_args (fuel : nat) (ts : list token) {struct fuel}
  : option (list expr * list token) :=
  match fuel with
  | O => None
  | S fuel =>
      match p_level fuel 0 ts with
      | Some (e, TComma :: r) =>
          match p_args fuel r with
          | Some (es, r') => Some (e :: es, r')
          | None => None
          end
      | Some (e, TRParen :: r) => Some ([e], r)
      | _ => None
      end
  end.

Definition parse_expr (s : string) : option expr :=
  let cs := list_ascii_of_string s in
  match tokens (S (length cs)) cs with
  | Some ts =>
      match p_level (8 * S (length ts)) 0 ts with
      | Some (e, []) => Some e
      | _ => None
      end
  | None => None
  end.

(** *** cel-go: the checker *)

(** Types agree when they are equal or one of them is dynamic (or already in
    error, so that one mistake is reported once). *)
Definition assignable (a b : Cel.type) : bool :=
  bool_decide (a = b)
  || bool_decide (a = Cel.DynType) || bool_decide (b = Cel.DynType)
  || bool_decide (a = Cel.ErrorType) || bool_decide (b = Cel.ErrorType).

Fixpoint all_assignable (given declared : list Cel.type) : bool :=
  match given, declared with
  | [], [] => true
  | a :: r, b :: r' => assignable a b && all_assignable r r'
  | _, _ => false
  end.

Definition no_overload (f : string) : string :=
  "found no matching overload for '" +:+ f +:+ "'".

Definition undeclared (x : string) : string :=
  "undeclared reference to '" +:+ x +:+ "'".

Definition binary_type (op : binop) (a b : Cel.type) : option Cel.type :=
  match op with
  | OpOr | OpAnd =>
      if assignable a Cel.BoolType && assignable b Cel.BoolType
      then Some Cel.BoolType else None
  | OpEq | OpNe => if assignable a b then Some Cel.BoolType else None
  | OpAdd =>
      if assignable a b
         && (assignable a Cel.IntType || assignable a Cel.DoubleType
             || assignable a Cel.StringType)
      then Some (if bool_decide (a = Cel.DynType) then b else a) else None
  end.

Definition op_name (op : binop) : string :=
  match op with
  | OpOr => "_||_" | OpAnd => "_&&_" | OpEq => "_==_" | OpNe => "_!=_"
  | OpAdd => "_+_"
  end.

(** The type of an expression and every issue found in it. *)
Fixpoint check (scope : list (string * Cel.type))
    (funs : list (string * Cel.Overload)) (e : expr)
  : Cel.type * list string :=
  match e with
  | Lit v => (Cel.Val_Type v, [])
  | Ident x =>
      match lookup_decl x scope with
      | Some t => (t, [])
      | None => (Cel.ErrorType, [undeclared x])
      end
  | Apply f args =>
      let checked := map (check scope funs) args in
      let issues := concat (map snd checked) in
      match filter (fun o => bool_decide (o.1 = f)) funs with
      | [] => (Cel.ErrorType, issues ++ [undeclared f])
      | os =>
          match find (fun o => all_assignable (map fst checked)
                                 (Cel.argTypes o.2)) os with
          | Some o => (Cel.resultType o.2, issues)
          | None => (Cel.ErrorType, issues ++ [no_overload f])
          end
      end
  | Not a =>
      let '(t, issues) := check scope funs a in
      if assignable t Cel.BoolType then (Cel.BoolType, issues)
      else (Cel.ErrorType, issues ++ [no_overload "!_"])
  | Binary op a b =>
      let '(ta, ia) := check scope funs a in
      let '(tb, ib) := check scope funs b in
      match binary_type op ta tb with
      | Some t => (t, ia ++ ib)
      | None => (Cel.ErrorType, ia ++ ib ++ [no_overload (op_name op)])
      end
  end.

(** [Environ.Compile]: parse, set up the checker, check. *)
Definition Compile (env : Environ) (expression : string)
  : option expr * option (list string) :=
  match parse_expr expression with
  | None => (None, Some ["Syntax error"])
  | Some e =>
      match initChecker env with
      | inl m => (None, Some [m])
      | inr scope =>
          match check scope (functions env) e with
          | (_, []) => (Some e, None)
          | (_, issues) => (None, Some issues)
          end
      end
  end.

Definition Err_ (issues : list string) : option string :=
  match issues with
  | [] => None
  | _ => Some (join issues)
  end.

(** *** cel-go: the interpreter *)

Record Plan := { prg_functions : list (string * Cel.Overload); prg_expr : expr }.

Definition Program_ (env : Environ) (ast : option expr) : string + Plan :=
  match ast with
  | Some e => inr {| prg_functions := functions env; prg_expr := e |}
  | None => inl "no expression to plan"
  end.

Definition is_Err (v : Cel.Val) : bool :=
  match v with Cel.Err _ => true | _ => false end.

Definition val_eq (a b : Cel.Val) : Cel.Val :=
  match a, b with
  | Cel.Err m, _ | _, Cel.Err m => Cel.Err m
  | Cel.Bool x, Cel.Bool y => Cel.Bool (bool_decide (x = y))
  | Cel.String x, Cel.String y => Cel.Bool (bool_decide (x = y))
  | Cel.Double x, Cel.Double y => Cel.Bool (PrimFloat.eqb x y)
  | Cel.Int x, Cel.Int y => Cel.Bool (bool_decide (x = y))
  | Cel.Null, Cel.Null => Cel.Bool true
  | _, _ => Cel.Err "no such overload"
  end.

Definition val_not (a : Cel.Val) : Cel.Val :=
  match a with
  | Cel.Bool x => Cel.Bool (negb x)
  | Cel.Err m => Cel.Err m
  | _ => Cel.Err "no such overload"
  end.

(** The logical operators absorb an error when the other side decides. *)
Definition val_binary (op : binop) (a b : Cel.Val) : Cel.Val :=
  match op with
  | OpAnd =>
      match a, b with
      | Cel.Bool false, _ | _, Cel.Bool false => Cel.Bool false
      | Cel.Bool true, Cel.Bool true => Cel.Bool true
      | Cel.Err m, _ | _, Cel.Err m => Cel.Err m
      | _, _ => Cel.Err "no such overload"
      end
  | OpOr =>
      match a, b with
      | Cel.Bool true, _ | _, Cel.Bool true => Cel.Bool true
      | Cel.Bool false, Cel.Bool false => Cel.Bool false
      | Cel.Err m, _ | _, Cel.Err m => Cel.Err m
      | _, _ => Cel.Err "no such overload"
      end
  | OpEq => val_eq a b
  | OpNe => val_not (val_eq a b)
  | OpAdd =>
      match a, b with
      | Cel.Err m, _ | _, Cel.Err m => Cel.Err m
      | Cel.Int x, Cel.Int y => Cel.Int (x + y)
      | Cel.Double x, Cel.Double y => Cel.Double (PrimFloat.add x y)
      | Cel.String x, Cel.String y => Cel.String (x +:+ y)
      | _, _ => Cel.Err "no such overload"
      end
  end.

Definition runtime_match (v : Cel.Val) (declared : Cel.type) : bool :=
  bool_decide (declared = Cel.DynType)
  || bool_decide (Cel.type_Kind (Cel.Val_Type v) = Cel.type_Kind declared).

Fixpoint all_match (vs : list Cel.Val) (declared : list Cel.type) : bool :=
  match vs, declared with
  | [], [] => true
  | v :: r, t :: r' => runtime_match v t && all_match r r'
  | _, _ => false
  end.

(** A call goes to the overload whose declared argument types the values
    have; a panic in the bound function is recovered as an error. *)
Definition dispatch (funs : list (string * Cel.Overload)) (f : string)
    (vs : list Cel.Val) : Cel.Val :=
  match find is_Err vs with
  | Some e => e
  | None =>
      match find (fun o => bool_decide (o.1 = f)
                           && all_match vs (Cel.argTypes o.2)) funs with
      | Some o =>
          let r :=
            match Cel.binding o.2, vs with
            | Cel.UnaryBinding g, [a] => g a
            | Cel.BinaryBinding g, [a; b] => g a b
            | _, _ => Cel.Panics
            end in
          match r with
          | Cel.Returns v => v
          | Cel.Panics => Cel.Err "internal error"
          end
      | None => Cel.Err "no such overload"
      end
  end.

Fixpoint eval (funs : list (string * Cel.Overload))
    (vars : gmap string Go.value) (e : expr) : Cel.Val :=
  match e with
  | Lit v => v
  | Ident x =>
      match vars !! x with
      | Some g => default (Cel.Err "unsupported type") (Cel.NativeToValue g)
      | None => Cel.Err ("no such attribute(s): " +:+ x)
      end
  | Apply f args => dispatch funs f (map (eval funs vars) args)
  | Not a => val_not (eval funs vars a)
  | Binary op a b => val_binary op (eval funs vars a) (eval funs vars b)
  end.

(** [Program.Eval]: an error value is handed back as the error. *)
Definition Eval (p : Plan) (vars : gmap string Go.value) : string + Cel.Val :=
  match eval (prg_functions p) vars (prg_expr p) with
  | Cel.Err m => inl m
  | v => inr v
  end.

(** The one protobuf message type the program names. *)
Definition implements_Message (t : Go.type) : bool :=
  bool_decide (t = Go.Pointer Go.structpb_Value).

Definition map_order (m : gmap string Go.value)
  : map_to_list m ≡ₚ map_to_list m := reflexivity _.

Definition libs : Libs := {|
  strconv_ParseFloat := ParseFloat;
  strconv_FormatFloat := FormatFloat;
  json_parse := parse;
  gjson_Get := Get;
  has_ProtoReflect := implements_Message;
  range := map_to_list;
  range_perm := map_order;
  EnvOption := EnvOpt;
  cel_Function := Function_;
  cel_Variable := Variable_;
  Env := Environ;
  Ast := option expr;
  Issues := list string;
  Prg := Plan;
  cel_NewEnv := NewEnv;
  Env_Compile := Compile;
  Issues_Err := Err_;
  Issues_Errors := fun issues => issues;
  Env_Program := Program_;
  Prg_Eval := Eval
|}.

(** The program over this instance. *)
Definition Evaluate_ : option string -> string -> list EnvOpt
    -> list (Call (H := libs)) * Returned :=
  Evaluate (H := libs).

End Reference.

(** ** The specification's vocabulary *)

Module Spec.

Import Chars.

(** The error taxonomy, read off the message of the error. *)
Inductive ErrorKind :=
| NilInputError
| PayloadParseError
| EnvironmentBuildError
| CompileError
| EvaluationError
| NonBooleanResultError.

Definition taxonomy (e : Catcher.Error) : option ErrorKind :=
  let m := Catcher.msg e in
  if decide (m = "data is nil") then Some NilInputError
  else if decide (m = "cannot unmarshal data") then Some PayloadParseError
  else if decide (m = "failed to start CEL environment")
       then Some EnvironmentBuildError
  else if decide (m = "failed to compile expression") then Some CompileError
  else if decide (m = "failed to evaluate program") then Some EvaluationError
  else if decide (m = "output type is not boolean")
       then Some NonBooleanResultError
  else None.

(** What is at a path, as the result of the query tells. *)
Inductive Found :=
| Missing
| FoundNull
| FoundBool (b : bool)
| FoundNumber (f : float)
| FoundString (s : string)
| FoundJSON (raw : string).

Definition found (t : Gjson.Result) : Found :=
  match Gjson.Type_ t with
  | Gjson.Null =>
      if (String.length (Gjson.Raw t) =? 0)%nat then Missing else FoundNull
  | Gjson.False_ => FoundBool false
  | Gjson.True_ => FoundBool true
  | Gjson.Number => FoundNumber (Gjson.Num t)
  | Gjson.String => FoundString (Gjson.Str t)
  | Gjson.JSON => FoundJSON (Gjson.Raw t)
  end.


(** The path syntax of the specification: "dotted/bracket path syntax
    (e.g., a.b[0].c)", with "nested object and indexed array traversal
    (field, field.sub, field[0].sub)". *)
Inductive step :=
| Field (name : string)
| Index (i : nat).

Definition is_name_char (c : ascii) : bool :=
  negb (Ascii.eqb c "." || Ascii.eqb c "[" || Ascii.eqb c "]").

Fixpoint steps_rest (fuel : nat) (cs : chars) : option (list step) :=
  match fuel with
  | O => None
  | S fuel =>
      match cs with
      | [] => Some []
      | c :: r =>
          if Ascii.eqb c "." then
            let '(name, r') := span is_name_char r in
            match name with
            | [] => None
            | _ => cons (Field (text name)) <$> steps_rest fuel r'
            end
          else if Ascii.eqb c "[" then
            let '(ds, r') := span is_digit r in
            match ds, r' with
            | _ :: _, q :: r'' =>
                if Ascii.eqb q "]"
                then cons (Index (Z.to_nat (decimal ds))) <$> steps_rest fuel r''
                else None
            | _, _ => None
            end
          else None
      end
  end.

Definition steps (path : string) : option (list step) :=
  let cs := list_ascii_of_string path in
  let '(name, r) := span is_name_char cs in
  match name with
  | [] => None
  | _ => cons (Field (text name)) <$> steps_rest (S (length r)) r
  end.

Fixpoint follow (p : list step) (v : Json.value) : option Json.value :=
  match p, v with
  | [], _ => Some v
  | Field k :: rest, Json.Object ms =>
      match Json.member k ms with
      | Some x => follow rest x
      | None => None
      end
  | Index i :: rest, Json.Array l =>
      match l !! i with
      | Some x => follow rest x
      | None => None
      end
  | _, _ => None
  end.

Section Reachable.

Context `{Libs}.

(** "A value is reachable at path over the raw document." *)
Definition reachable (raw path : string) : bool :=
  match json_parse raw, steps path with
  | Some v, Some p => bool_decide (is_Some (follow p v))
  | _, _ => false
  end.

End Reachable.

End Spec.

(** ** The options and the stages of a run *)

Section Stages.

Context `{Libs}.

(** The declarations derived from the document: one per top-level key. *)
Definition document_declarations (valuesMap : gmap string Go.value)
  : list EnvOption :=
  map (fun kv => cel_Variable kv.1 (valueToCelType kv.2)) (range valuesMap).

Definition accessors (s : string) : list EnvOption :=
  [celExists s; safeBool s; safeString s; safeNum s].

(** The options [Evaluate] hands to [cel.NewEnv]. *)
Definition options (s : string) (envOption : list EnvOption)
    (valuesMap : gmap string Go.value) : list EnvOption :=
  accessors s ++ envOption ++ document_declarations valuesMap.

(** The stages of the pipeline a library call belongs to. *)
Inductive Stage := Parse | BuildEnvironment | CompileStage | EvaluateStage.

Definition stage_of (c : Call) : Stage :=
  match c with
  | Call_Unmarshal _ => Parse
  | Call_NewEnv _ => BuildEnvironment
  | Call_Compile _ _ | Call_Program _ _ => CompileStage
  | Call_Eval _ _ => EvaluateStage
  end.

(** The types the switch of [valueToCelType] names in a case. *)
Definition case_types : list Go.type :=
  [ Go.Bool; Go.String; Go.Int; Go.Int32; Go.Int64;
    Go.Uint; Go.Uint32; Go.Uint64; Go.Float32; Go.Float64;
    Go.Slice Go.Uint8; Go.time_Time;
    Go.Map Go.String Go.Interface;
    Go.Map Go.String (Go.Pointer Go.structpb_Value);
    Go.Slice Go.Interface ].

(** A dynamic type no case of the switch recognizes. *)
Definition unrecognized (t : Go.type) : bool :=
  negb (bool_decide (t ∈ case_types))
  && negb (Go.may_have_methods t && has_ProtoReflect t).

(** The runs of [Evaluate], one constructor per return statement: the calls
    made up to it and the values returned. *)
Inductive run (data : option string) (expression : string)
    (envOption : list EnvOption) : list Call -> Returned -> Prop :=
| run_nil :
    data = None ->
    run data expression envOption []
      (Return_ false (catcher_Error "data is nil" None ∅))
| run_unmarshal s err :
    data = Some s ->
    json_Unmarshal s = inl err ->
    run data expression envOption [Call_Unmarshal s]
      (Return_ false
         (catcher_Error "cannot unmarshal data" (Some (Catcher.FromJson err)) ∅))
| run_environment s valuesMap err :
    data = Some s ->
    json_Unmarshal s = inr valuesMap ->
    cel_NewEnv (options s envOption valuesMap) = inl err ->
    run data expression envOption
      [Call_Unmarshal s; Call_NewEnv (options s envOption valuesMap)]
      (Return_ false
         (catcher_Error "failed to start CEL environment"
            (Some (Catcher.FromCel err)) ∅))
| run_compile s valuesMap celEnv ast issues err :
    data = Some s ->
    json_Unmarshal s = inr valuesMap ->
    cel_NewEnv (options s envOption valuesMap) = inr celEnv ->
    Env_Compile celEnv expression = (ast, Some issues) ->
    Issues_Err issues = Some err ->
    run data expression envOption
      [Call_Unmarshal s; Call_NewEnv (options s envOption valuesMap);
       Call_Compile celEnv expression]
      (Return_ false
         (catcher_Error "failed to compile expression" None
            {[ "expression" := Catcher.Text expression;
               "issues" := Catcher.Issues (Issues_Errors issues) ]}))
| run_program s valuesMap celEnv ast issues err :
    data = Some s ->
    json_Unmarshal s = inr valuesMap ->
    cel_NewEnv (options s envOption valuesMap) = inr celEnv ->
    Env_Compile celEnv expression = (ast, issues) ->
    issues ≫= Issues_Err = None ->
    Env_Program celEnv ast = inl err ->
    run data expression envOption
      [Call_Unmarshal s; Call_NewEnv (options s envOption valuesMap);
       Call_Compile celEnv expression; Call_Program celEnv ast]
      (Return_ false
         (catcher_Error "failed to create program" (Some (Catcher.FromCel err))
            {[ "expression" := Catcher.Text expression ]}))
| run_eval s valuesMap celEnv ast issues prg err :
    data = Some s ->
    json_Unmarshal s = inr valuesMap ->
    cel_NewEnv (options s envOption valuesMap) = inr celEnv ->
    Env_Compile celEnv expression = (ast, issues) ->
    issues ≫= Issues_Err = None ->
    Env_Program celEnv ast = inr prg ->
    Prg_Eval prg valuesMap = inl err ->
    run data expression envOption
      [Call_Unmarshal s; Call_NewEnv (options s envOption valuesMap);
       Call_Compile celEnv expression; Call_Program celEnv ast;
       Call_Eval prg valuesMap]
      (Return_ false
         (catcher_Error "failed to evaluate program"
            (Some (Catcher.FromCel err))
            {[ "expression" := Catcher.Text expression ]}))
| run_verdict s valuesMap celEnv ast issues prg b :
    data = Some s ->
    json_Unmarshal s = inr valuesMap ->
    cel_NewEnv (options s envOption valuesMap) = inr celEnv ->
    Env_Compile celEnv expression = (ast, issues) ->
    issues ≫= Issues_Err = None ->
    Env_Program celEnv ast = inr prg ->
    Prg_Eval prg valuesMap = inr (Cel.Bool b) ->
    run data expression envOption
      [Call_Unmarshal s; Call_NewEnv (options s envOption valuesMap);
       Call_Compile celEnv expression; Call_Program celEnv ast;
       Call_Eval prg valuesMap]
      (Return_ b None)
| run_not_boolean s valuesMap celEnv ast issues prg out :
    data = Some s ->
    json_Unmarshal s = inr valuesMap ->
    cel_NewEnv (options s envOption valuesMap) = inr celEnv ->
    Env_Compile celEnv expression = (ast, issues) ->
    issues ≫= Issues_Err = None ->
    Env_Program celEnv ast = inr prg ->
    Prg_Eval prg valuesMap = inr out ->
    Cel.Val_Type out <> Cel.BoolType ->
    run data expression envOption
      [Call_Unmarshal s; Call_NewEnv (options s envOption valuesMap);
       Call_Compile celEnv expression; Call_Program celEnv ast;
       Call_Eval prg valuesMap]
      (Return_ false
         (catcher_Error "output type is not boolean" None
            {[ "expression" := Catcher.Text expression ]})).

End Stages.

(** [classifies t T]: every value of dynamic type [t] is given the type [T]. *)
Definition classifies `{Libs} (t : Go.type) (T : Cel.type) : Prop :=
  forall v, Go.TypeOf v = Some t -> valueToCelType v = T.

(** ** helpers: configuration from the process environment
    ([src/helpers/env.go]) *)

Module Helpers.

(** [*logger.Error], kept as the call of [ErrorF] that made it: the format
    and its arguments. *)
Record LogError := ErrorF {
  format : string;
  arguments : list string
}.

(** The process environment, and [os.Getenv]: the value, which is empty when
    the variable is not present. *)
Definition Getenv (environ : gmap string string) (name : string) : string :=
  default "" (environ !! name).

(** [*strconv.NumError] of [Atoi]: the text given and what is wrong with it. *)
Inductive NumErr := ErrSyntax | ErrRange.

Record NumError := { Num : string; Err : NumErr }.

(** The scan of [strconv.ParseUint(s, 10, 64)]: a character that is no digit
    is a syntax error, a value past 2^64 - 1 a range error, whichever comes
    first from the left. *)
Fixpoint scan (cs : list ascii) (n : Z) : NumErr + Z :=
  match cs with
  | [] => inr n
  | c :: r =>
      if Chars.is_digit c then
        let n1 := (n * 10 + Chars.digit_val c)%Z in
        if (2 ^ 64 - 1 <? n1)%Z then inl ErrRange else scan r n1
      else inl ErrSyntax
  end.

(** [strconv.Atoi] for a 64-bit [int]: an optional sign, then decimal digits,
    within the range of the type. *)
Definition Atoi (s : string) : NumError + Z :=
  let fail e := inl {| Num := s; Err := e |} in
  let cs := list_ascii_of_string s in
  let '(neg, digits) :=
    match cs with
    | c :: r =>
        if Ascii.eqb c "-" then (true, r)
        else if Ascii.eqb c "+" then (false, r)
        else (false, cs)
    | [] => (false, cs)
    end in
  match digits with
  | [] => fail ErrSyntax
  | _ =>
      match scan digits 0 with
      | inl e => fail e
      | inr un =>
          if negb neg && (2 ^ 63 <=? un)%Z then fail ErrRange
          else if neg && (2 ^ 63 <? un)%Z then fail ErrRange
          else inr (if neg then (- un)%Z else un)
      end
  end.

(** [strings.Split(s, sep)] for a separator of one character: the pieces
    between the separators, one more than there are separators. *)
Fixpoint split_chars (sep : ascii) (cs cur : list ascii) : list string :=
  match cs with
  | [] => [string_of_list_ascii (rev cur)]
  | c :: r =>
      if Ascii.eqb c sep then
        string_of_list_ascii (rev cur) :: split_chars sep r []
      else split_chars sep r (c :: cur)
  end.

Definition Split (s : string) (sep : ascii) : list string :=
  split_chars sep (list_ascii_of_string s) [].

(** [strings.Join(parts, sep)]. *)
Fixpoint Join (parts : list string) (sep : ascii) : string :=
  match parts with
  | [] => ""
  | [p] => p
  | p :: r => p +:+ String.String sep (Join r sep)
  end.

Definition count_char (c : ascii) (s : string) : nat :=
  length (filter (fun x => x = c) (list_ascii_of_string s)).

(** A decimal numeral: an optional sign and at least one digit, and the
    number it writes. *)
Definition numeral (s : string) (n : Z) : Prop :=
  exists sign digits,
    list_ascii_of_string s = sign ++ digits
    /\ (sign = [] \/ sign = ["+"%char] \/ sign = ["-"%char])
    /\ digits <> []
    /\ forallb Chars.is_digit digits = true
    /\ n = if decide (sign = ["-"%char]) then (- Chars.decimal digits)%Z
           else Chars.decimal digits.

Record Env := {
  ClusterPort : Z;
  RestPort : Z;
  GrpcPort : Z;
  Workdir : string;
  RulesRepository : string;
  SearchNodes : list string;
  LogLevel : Z
}.

Section Env.

(** [strings.TrimSpace], and the message of a number error (the method
    Error of NumError, which quotes the text). *)
Variable TrimSpace : string -> string.
Variable NumError_Error : NumError -> string.

Variable environ : gmap string string.

Definition getEnvStr (name def : string) (required : bool)
  : LogError + string :=
  let val := Getenv environ name in
  if decide (val = "") then
    if required then inl (ErrorF "configuration required: %s" [name])
    else inr def
  else inr val.

(** The text a lookup works on: the value, or the default when the value is
    empty. *)
Definition effective (name def : string) : string :=
  if decide (Getenv environ name = "") then def else Getenv environ name.

(** A variable that is empty or holds an integer. *)
Definition valid_int (name : string) : Prop :=
  Getenv environ name = "" \/ exists n, Atoi (Getenv environ name) = inr n.

Definition getEnvInt (name def : string) (required : bool) : LogError + Z :=
  match getEnvStr name def required with
  | inl e => inl e
  | inr str =>
      match Atoi str with
      | inl err => inl (ErrorF (NumError_Error err) [])
      | inr val => inr val
      end
  end.

Definition getEnvStrSlice (name def : string) (required : bool)
  : LogError + list string :=
  match getEnvStr name def required with
  | inl e => inl e
  | inr str =>
      inr (fold_left (fun items item => items ++ [TrimSpace item])
             (Split str ",") [])
  end.

(** [getEnv] either returns the record or panics with the error of the first
    variable that fails. *)
Definition getEnv : LogError + Env :=
  match getEnvInt "CLUSTER_PORT" "8082" false with
  | inl e => inl e
  | inr clusterPort =>
  match getEnvInt "REST_PORT" "8080" false with
  | inl e => inl e
  | inr restPort =>
  match getEnvInt "GRPC_PORT" "8081" false with
  | inl e => inl e
  | inr grpcPort =>
  match getEnvStr "WORK_DIR" "" true with
  | inl e => inl e
  | inr workdir =>
  match getEnvStrSlice "SEARCH_NODES" "" true with
  | inl e => inl e
  | inr searchNodes =>
  match getEnvStr "RULES_REPOSITORY" "" true with
  | inl e => inl e
  | inr rulesRepository =>
  match getEnvInt "LOG_LEVEL" "200" false with
  | inl e => inl e
  | inr logLevel =>
      inr {| ClusterPort := clusterPort; RestPort := restPort;
             GrpcPort := grpcPort; Workdir := workdir;
             RulesRepository := rulesRepository;
             SearchNodes := searchNodes; LogLevel := logLevel |}
  end end end end end end end.

End Env.

(** [strings.TrimSpace] on ASCII text: blanks, tabs, line feeds, vertical
    tabs, form feeds and carriage returns are cut from both ends. *)
Definition is_space (c : ascii) : bool :=
  let n := nat_of_ascii c in
  (n =? 32)%nat || ((9 <=? n)%nat && (n <=? 13)%nat).

Fixpoint trim_left (cs : list ascii) : list ascii :=
  match cs with
  | c :: r => if is_space c then trim_left r else cs
  | [] => []
  end.

Definition TrimSpace_ascii (s : string) : string :=
  string_of_list_ascii
    (rev (trim_left (rev (trim_left (list_ascii_of_string s))))).

(** The message of a number error, the text unquoted. *)
Definition NumError_message (e : NumError) : string :=
  "strconv.Atoi: parsing " +:+ Num e +:+ ": "
  +:+ match Err e with
      | ErrSyntax => "invalid syntax"
      | ErrRange => "value out of range"
      end.

End Helpers.


(** ** go_sdk: the merged configuration ([src/json.go]) *)

Module Config.

Record Asset := {
  AssetName : string;
  Hostnames : list string;
  IPs : list string;
  Confidentiality : Z;
  Availability : Z;
  Integrity : Z
}.

Record Tenant := {
  TenantName : string;
  Id : string;
  Assets : list Asset;
  TenantDisabledRules : list Z
}.

Section Config.

(** The types [Pipeline] and [Env] and the settings of a plugin are declared
    in files of the package that are not among the sources. *)
Variables (Pipeline PluginSettings Env : Type).

(** A map field is [None] while it is nil. *)
Record Config := {
  Pipeline_ : list Pipeline;
  DisabledRules : list Z;
  Tenants : list Tenant;
  Patterns : option (gmap string string);
  Plugins : option (gmap string PluginSettings);
  Env_ : Env
}.

(** What [loadCfg] calls: [getEnv] ([None] when it panics), the field
    [Workdir], [path.Join], [ListFiles] and [ReadYAML] ([None] when it
    returns an error). *)
Variable getEnv : option Env.
Variable Workdir : Env -> string.
Variable path_Join : string -> string -> string.
Variable ListFiles : string -> string -> list string.
Variable ReadYAML : string -> option Config.

(** [for k, v := range src { dst[k] = v }]: ranging over a nil or empty map
    does nothing; an assignment into a nil map panics ([None]). *)
Definition assign {V} (dst src : option (gmap string V))
  : option (option (gmap string V)) :=
  match src with
  | None => Some dst
  | Some new =>
      if decide (new = ∅) then Some dst
      else
        match dst with
        | None => None
        | Some old =>
            Some (Some (foldr (fun kv acc => <[kv.1 := kv.2]> acc) old
                          (map_to_list new)))
        end
  end.

(** The body of the loop for a file that was read. *)
Definition merge (c nCfg : Config) : option Config :=
  match assign (Patterns c) (Patterns nCfg) with
  | None => None
  | Some patterns =>
      match assign (Plugins c) (Plugins nCfg) with
      | None => None
      | Some plugins =>
          Some {| Pipeline_ := Pipeline_ c ++ Pipeline_ nCfg;
                  DisabledRules := DisabledRules c ++ DisabledRules nCfg;
                  Tenants := Tenants c ++ Tenants nCfg;
                  Patterns := patterns;
                  Plugins := plugins;
                  Env_ := Env_ c |}
      end
  end.

Fixpoint load_files (cFiles : list string) (c : Config) : option Config :=
  match cFiles with
  | [] => Some c
  | cFile :: rest =>
      match ReadYAML cFile with
      | None => load_files rest c
      | Some nCfg =>
          match merge c nCfg with
          | Some c' => load_files rest c'
          | None => None
          end
      end
  end.

(** [(c *Config).loadCfg()]: the configuration after the call, or [None]
    when it panics. *)
Definition loadCfg (c : Config) : option Config :=
  match getEnv with
  | None => None
  | Some env =>
      let cFiles := ListFiles (path_Join (Workdir env) "pipeline") ".yaml" in
      match load_files cFiles c with
      | None => None
      | Some c' =>
          Some {| Pipeline_ := Pipeline_ c'; DisabledRules := DisabledRules c';
                  Tenants := Tenants c'; Patterns := Patterns c';
                  Plugins := Plugins c'; Env_ := env |}
      end
  end.

(** [updateCfg], between taking and releasing the lock: the value stored in
    the shared configuration.  [zeroEnv] is the zero value of [Env]. *)
Variable zeroEnv : Env.

Definition updateCfg : option Config :=
  let tmpCfg :=
    {| Pipeline_ := []; DisabledRules := []; Tenants := [];
       Patterns := Some ∅; Plugins := Some ∅; Env_ := zeroEnv |} in
  loadCfg tmpCfg.

(** The files that were read, in the order they were listed. *)
Definition read_files : list Config :=
  match getEnv with
  | None => []
  | Some env =>
      omap ReadYAML (ListFiles (path_Join (Workdir env) "pipeline") ".yaml")
  end.

(** The pattern of a name in the last configuration that has one. *)
Definition last_pattern (name : string) (cfgs : list Config) : option string :=
  fold_left
    (fun acc n =>
       match Patterns n ≫= (fun m => m !! name) with
       | Some p => Some p
       | None => acc
       end) cfgs None.

(** The settings of a plugin in the last configuration that has them. *)
Definition last_plugin (name : string) (cfgs : list Config)
  : option PluginSettings :=
  fold_left
    (fun acc n =>
       match Plugins n ≫= (fun m => m !! name) with
       | Some p => Some p
       | None => acc
       end) cfgs None.

(** A map field that holds at least one entry. *)
Definition filled {V} (field : option (gmap string V)) : Prop :=
  exists m, field = Some m /\ m <> ∅.

End Config.

Arguments Build_Config {Pipeline PluginSettings Env}.
Arguments Pipeline_ {Pipeline PluginSettings Env}.
Arguments DisabledRules {Pipeline PluginSettings Env}.
Arguments Tenants {Pipeline PluginSettings Env}.
Arguments Patterns {Pipeline PluginSettings Env}.
Arguments Plugins {Pipeline PluginSettings Env}.
Arguments Env_ {Pipeline PluginSettings Env}.
Arguments merge {Pipeline PluginSettings Env}.
Arguments load_files {Pipeline PluginSettings Env}.
Arguments loadCfg {Pipeline PluginSettings Env}.
Arguments updateCfg {Pipeline PluginSettings Env}.
Arguments read_files {Pipeline PluginSettings Env}.
Arguments last_pattern {Pipeline PluginSettings Env}.
Arguments last_plugin {Pipeline PluginSettings Env}.

End Config.

(** ** go_sdk: requests and downloads ([DoReq], [Download]) *)

Module Net.

Record Response {Body : Type} := {
  StatusCode : Z;
  Body_ : Body
}.

Arguments Response : clear implicits.

Definition StatusNoContent : Z := 204.
Definition StatusRequestEntityTooLarge : Z := 413.
Definition StatusInternalServerError : Z := 500.

Definition maxRequestSize : Z := 1048576.

Section DoReq.

(** The type the response is decoded into and its zero value; the request
    and the response body of net/http. *)
Variables (response Request Body : Type).
Variable zero : response.

(** [http.NewRequest], [Header.Add], the order of a range over the headers,
    [client.Do], [io.ReadAll] (what was read, and the error) and
    [json.Unmarshal(body, &result)] (the result after the call, and the
    error).  An error is kept by its message. *)
Variable NewRequest : string -> string -> string -> string + Request.
Variable Header_Add : Request -> string -> string -> Request.
Variable range_headers : gmap string string -> list (string * string).
Variable client_Do : Request -> string + Response Body.
Variable ReadAll : Body -> string * option string.
Variable Unmarshal : string -> response -> response * option string.

(** The requests sent. *)
Inductive Sent := Call_Do (req : Request).

(** The three values returned. *)
Record Reply := {
  result : response;
  status : Z;
  err : option string
}.

Definition DoReq_body (url data method : string)
    (headers : gmap string string) : Run.t (Call := Sent) Reply :=
  let result := zero in
  _ <- (if (maxRequestSize <? Z.of_nat (String.length data))%Z then
          Run.Return {| result := result;
                        status := StatusRequestEntityTooLarge;
                        err := Some "request too large" |}
        else Run.ret tt) ;;
  req <- match NewRequest method url data with
         | inl e =>
             Run.Return {| result := result;
                           status := StatusInternalServerError;
                           err := Some ("error creating request: " +:+ e) |}
         | inr req => Run.ret req
         end ;;
  let req := fold_left (fun r kv => Header_Add r kv.1 kv.2)
               (range_headers headers) req in
  r <- Run.call (Call_Do req) (client_Do req) ;;
  resp <- match r with
          | inl e =>
              Run.Return {| result := result;
                            status := StatusInternalServerError;
                            err := Some ("error sending request: " +:+ e) |}
          | inr resp => Run.ret resp
          end ;;
  body <- match ReadAll (Body_ resp) with
          | (_, Some e) =>
              Run.Return {| result := result;
                            status := StatusInternalServerError;
                            err := Some ("error reading response: " +:+ e) |}
          | (body, None) => Run.ret body
          end ;;
  if (400 <=? StatusCode resp)%Z then
    Run.ret {| result := result; status := StatusCode resp;
               err := Some ("received status code "
                            +:+ pretty (StatusCode resp)) |}
  else if decide (StatusCode resp = StatusNoContent) then
    Run.ret {| result := result; status := StatusCode resp; err := None |}
  else
    match Unmarshal body result with
    | (result, Some e) =>
        Run.ret {| result := result; status := StatusInternalServerError;
                   err := Some ("error unmarshalling response: " +:+ e) |}
    | (result, None) =>
        Run.ret {| result := result; status := StatusCode resp; err := None |}
    end.

Definition DoReq (url data method : string) (headers : gmap string string)
  : list Sent * Reply :=
  Run.run (DoReq_body url data method headers).

(** The request as it is sent: every header added. *)
Definition with_headers (headers : gmap string string)
    (req : Request) : Request :=
  fold_left (fun r kv => Header_Add r kv.1 kv.2) (range_headers headers) req.

(** The paths through [DoReq], one per return statement. *)
Inductive path (url data method : string) (headers : gmap string string)
  : list Sent -> Reply -> Prop :=
| too_large :
    (maxRequestSize < Z.of_nat (String.length data))%Z ->
    path url data method headers []
      {| result := zero; status := 413; err := Some "request too large" |}
| not_created e :
    (Z.of_nat (String.length data) <= maxRequestSize)%Z ->
    NewRequest method url data = inl e ->
    path url data method headers []
      {| result := zero; status := 500;
         err := Some ("error creating request: " +:+ e) |}
| not_sent req e :
    NewRequest method url data = inr req ->
    client_Do (with_headers headers req) = inl e ->
    path url data method headers [Call_Do (with_headers headers req)]
      {| result := zero; status := 500;
         err := Some ("error sending request: " +:+ e) |}
| not_read req resp partial e :
    NewRequest method url data = inr req ->
    client_Do (with_headers headers req) = inr resp ->
    ReadAll (Body_ resp) = (partial, Some e) ->
    path url data method headers [Call_Do (with_headers headers req)]
      {| result := zero; status := 500;
         err := Some ("error reading response: " +:+ e) |}
| refused req resp body :
    NewRequest method url data = inr req ->
    client_Do (with_headers headers req) = inr resp ->
    ReadAll (Body_ resp) = (body, None) ->
    (400 <= StatusCode resp)%Z ->
    path url data method headers [Call_Do (with_headers headers req)]
      {| result := zero; status := StatusCode resp;
         err := Some ("received status code " +:+ pretty (StatusCode resp)) |}
| no_content req resp body :
    NewRequest method url data = inr req ->
    client_Do (with_headers headers req) = inr resp ->
    ReadAll (Body_ resp) = (body, None) ->
    StatusCode resp = 204%Z ->
    path url data method headers [Call_Do (with_headers headers req)]
      {| result := zero; status := 204; err := None |}
| not_decoded req resp body res e :
    NewRequest method url data = inr req ->
    client_Do (with_headers headers req) = inr resp ->
    ReadAll (Body_ resp) = (body, None) ->
    (StatusCode resp < 400)%Z -> StatusCode resp <> 204%Z ->
    Unmarshal body zero = (res, Some e) ->
    path url data method headers [Call_Do (with_headers headers req)]
      {| result := res; status := 500;
         err := Some ("error unmarshalling response: " +:+ e) |}
| decoded req resp body res :
    NewRequest method url data = inr req ->
    client_Do (with_headers headers req) = inr resp ->
    ReadAll (Body_ resp) = (body, None) ->
    (StatusCode resp < 400)%Z -> StatusCode resp <> 204%Z ->
    Unmarshal body zero = (res, None) ->
    path url data method headers [Call_Do (with_headers headers req)]
      {| result := res; status := StatusCode resp; err := None |}.

End DoReq.

Section Download.

Variable Body : Type.

(** The files, by path.  [os.Create] creates or truncates the file, unless
    the system refuses ([create_error]); [client.Get]; [io.Copy(out, body)]
    (the bytes written to the file, and the error). *)
Variable create_error : gmap string string -> string -> option string.
Variable client_Get : string -> string + Response Body.
Variable Copy : Body -> string * option string.

Inductive Fetched := Call_Get (url : string).

(** The files after the call, the requests made, and the error returned. *)
Definition Download (files : gmap string string) (url file : string)
  : gmap string string * list Fetched * option string :=
  match create_error files file with
  | Some e => (files, [], Some ("could not create file: " +:+ e))
  | None =>
      let files := <[file := ""]> files in
      match client_Get url with
      | inl e =>
          (files, [Call_Get url],
           Some ("could not do request to the URL: " +:+ e))
      | inr resp =>
          let '(written, e) := Copy (Body_ resp) in
          let files := <[file := written]> files in
          match e with
          | Some e =>
              (files, [Call_Get url],
               Some ("could not save data to file: " +:+ e))
          | None => (files, [Call_Get url], None)
          end
      end
  end.

End Download.

Arguments Call_Do {Request}.
Arguments Build_Reply {response}.
Arguments result {response}.
Arguments status {response}.
Arguments err {response}.
Arguments DoReq {response Request Body}.
Arguments with_headers {Request}.
Arguments path {response Request Body}.
Arguments Download {Body}.

End Net.


(** * Properties *)

Section Properties.

Context `{Libs}.

Import Cel.

(** ** The shape of a run *)

Lemma fold_left_declarations (l : list (string * Go.value))
    (acc : list EnvOption) :
  fold_left (fun acc kv => acc ++ [cel_Variable kv.1 (valueToCelType kv.2)]) l acc
  = acc ++ map (fun kv => cel_Variable kv.1 (valueToCelType kv.2)) l.
Proof.
  revert acc. induction l as [|kv l IH]; intros acc; simpl.
  - by rewrite app_nil_r.
  - rewrite IH. by rewrite <- app_assoc.
Qed.

Lemma Val_Type_Bool out : Val_Type out = BoolType -> exists b, out = Bool b.
Proof. destruct out; simpl; intros; try discriminate; eauto. Qed.

(** Every call of [Evaluate] is one of the runs of [run]; in particular the
    assertion [out.Value().(bool)] never panics. *)
Lemma Evaluate_run data expression envOption :
  run data expression envOption
    (Evaluate data expression envOption).1
    (Evaluate data expression envOption).2.
Proof.
  unfold Evaluate, Evaluate_body.
  destruct data as [s|]; simpl; [|by constructor].
  destruct (json_Unmarshal s) as [err|valuesMap] eqn:Hjson; simpl;
    [by econstructor|].
  rewrite fold_left_declarations.
  change (celExists s :: safeBool s :: safeString s :: safeNum s :: envOption
          ++ map _ (range valuesMap)) with (options s envOption valuesMap).
  destruct (cel_NewEnv _) as [err|celEnv] eqn:Henv; simpl;
    [by econstructor|].
  destruct (Env_Compile celEnv expression) as [ast issues] eqn:Hcompile; simpl.
  destruct issues as [i|]; simpl.
  - destruct (Issues_Err i) as [err|] eqn:Herr; simpl; [by econstructor|].
    destruct (Env_Program celEnv ast) as [err|prg] eqn:Hprg; simpl;
      [by eapply run_program|].
    destruct (Prg_Eval prg valuesMap) as [err|out] eqn:Heval; simpl;
      [by eapply run_eval|].
    case_bool_decide as Hty; simpl.
    + destruct (Val_Type_Bool _ Hty) as [b ->]. simpl. by eapply run_verdict.
    + by eapply run_not_boolean.
  - destruct (Env_Program celEnv ast) as [err|prg] eqn:Hprg; simpl;
      [by eapply run_program|].
    destruct (Prg_Eval prg valuesMap) as [err|out] eqn:Heval; simpl;
      [by eapply run_eval|].
    case_bool_decide as Hty; simpl.
    + destruct (Val_Type_Bool _ Hty) as [b ->]. simpl. by eapply run_verdict.
    + by eapply run_not_boolean.
Qed.

(** Membership of a call in a trace written out as a list. *)
Ltac trace_member :=
  repeat match goal with
  | H : _ ∈ [] |- _ => by apply not_elem_of_nil in H
  | H : _ ∈ _ :: _ |- _ =>
      apply elem_of_cons in H; destruct H as [H|H]; [try discriminate H|]
  end.

(** Cases on the run of a call of [Evaluate]: its trace and its return
    values are replaced by those of each constructor of [run]. *)
Ltac run_cases data expression envOption :=
  let Hrun := fresh "Hrun" in
  let r := fresh "r" in
  let Hr := fresh "Hr" in
  pose proof (Evaluate_run data expression envOption) as Hrun;
  remember (Evaluate data expression envOption) as r eqn:Hr;
  clear Hr; destruct r; simpl in *;
  inversion Hrun; subst; clear Hrun.

(** ** Error paths *)

(** C5: for every expression, [Evaluate(nil, E)] returns at once with the
    nil-input error and the verdict false, whatever the expression and the
    extra options are; no library call is made before it, so no later stage
    (parse, environment build, compile, evaluate) runs. *)
Theorem Evaluate_nil_data expression envOption :
  Evaluate None expression envOption
  = ([], Return_ false (catcher_Error "data is nil" None ∅))
  /\ (catcher_Error "data is nil" None ∅ ≫= Spec.taxonomy)
     = Some Spec.NilInputError.
Proof. split; reflexivity. Qed.

(** C10: whenever [Evaluate] returns a non-nil error, at whatever stage, the
    boolean returned with it is false. *)
Theorem Evaluate_error_is_false data expression envOption e :
  error_of (Evaluate data expression envOption).2 = Some e ->
  matched_of (Evaluate data expression envOption).2 = Some false.
Proof.
  intros Hret. run_cases data expression envOption; done.
Qed.

(** C8: when the evaluation call was made and returned a value without an
    error, [Evaluate] returns that value as the verdict, with no error,
    exactly when its type is Bool; a value of any other type gives the verdict
    false together with the non-boolean-result error. *)
Theorem Evaluate_verdict_iff_boolean data expression envOption prg vars out :
  Call_Eval prg vars ∈ (Evaluate data expression envOption).1 ->
  Prg_Eval prg vars = inr out ->
  let ret := (Evaluate data expression envOption).2 in
  (Val_Type out = BoolType <-> exists b, ret = Return_ b None)
  /\ (forall b, ret = Return_ b None -> out = Bool b)
  /\ (Val_Type out <> BoolType ->
      ret = Return_ false
              (catcher_Error "output type is not boolean" None
                 {[ "expression" := Catcher.Text expression ]})).
Proof.
  intros Hcall Heval ret. subst ret.
  run_cases data expression envOption;
    trace_member; injection Hcall as -> ->;
    match goal with
    | H1 : Prg_Eval ?p ?v = _, H2 : Prg_Eval ?p ?v = _ |- _ =>
        rewrite H1 in H2; try discriminate H2; injection H2 as <-
    end.
  - split; [|split].
    + split; [eauto|done].
    + by intros b' [= ->].
    + by intros [].
  - split; [|split].
    + split; [done|by intros [b' ?]].
    + by intros b' ?.
    + done.
Qed.

(** C7: when the pipeline reaches the compile stage and the checker reports
    issues for the expression (as it does for an undeclared identifier, a
    call no overload matches, or an operator on mismatched kinds), [Evaluate]
    returns the compile error carrying the expression and the whole list of
    issues, and stops there: neither the program is planned nor the
    evaluation called. *)
Theorem Evaluate_compile_error data expression envOption celEnv ast issues err :
  Call_Compile celEnv expression ∈ (Evaluate data expression envOption).1 ->
  Env_Compile celEnv expression = (ast, Some issues) ->
  Issues_Err issues = Some err ->
  (Evaluate data expression envOption).2
  = Return_ false
      (catcher_Error "failed to compile expression" None
         {[ "expression" := Catcher.Text expression;
            "issues" := Catcher.Issues (Issues_Errors issues) ]})
  /\ last (Evaluate data expression envOption).1
     = Some (Call_Compile celEnv expression)
  /\ Forall (fun c => stage_of c <> EvaluateStage)
       (Evaluate data expression envOption).1.
Proof.
  intros Hcall Hcompile Herr.
  run_cases data expression envOption;
    trace_member; injection Hcall as ->;
    match goal with
    | H1 : Env_Compile ?e ?x = _, H2 : Env_Compile ?e ?x = _ |- _ =>
        rewrite H1 in H2; injection H2 as <- <-
    end;
    try (simpl in *; congruence).
  split; [done|]. split; [done|].
  repeat constructor; discriminate.
Qed.

(** ** Declarations and bindings *)

Lemma to_interface_shape ParseFloat j v :
  Json.to_interface ParseFloat j = Some v -> Go.decoded_shape v = true.
Proof.
  destruct j; simpl; intros Hv; simplify_option_eq; try done.
Qed.

Lemma to_map_shape ParseFloat ms acc m :
  map_Forall (fun _ v => Go.decoded_shape v = true) acc ->
  Json.to_map ParseFloat ms acc = Some m ->
  map_Forall (fun _ v => Go.decoded_shape v = true) m.
Proof.
  revert acc. induction ms as [|[k x] ms IH]; simpl; intros acc Hacc Hm.
  - by injection Hm as <-.
  - destruct (Json.to_interface ParseFloat x) as [v|] eqn:Hx; [|done].
    eapply IH; [|done]. apply map_Forall_insert_2; [|done].
    by eapply to_interface_shape.
Qed.

(** Every value [json.Unmarshal] binds to a top-level key has one of the
    shapes encoding/json produces. *)
Lemma json_Unmarshal_shape s valuesMap k v :
  json_Unmarshal s = inr valuesMap -> valuesMap !! k = Some v ->
  Go.decoded_shape v = true.
Proof.
  unfold json_Unmarshal, Json.Unmarshal_map. intros Hm Hk.
  destruct (json_parse s) as [[| | | | |ms]|]; try discriminate.
  - injection Hm as <-. by rewrite lookup_empty in Hk.
  - destruct (Json.to_map _ ms ∅) as [m|] eqn:Hms; [|done].
    injection Hm as ->.
    eapply (to_map_shape _ ms ∅ valuesMap); [apply map_Forall_empty|done|done].
Qed.

(** On a value of those shapes the classifier and the interpreter's adapter
    agree on the kind. *)
Lemma valueToCelType_runtime_kind v :
  Go.decoded_shape v = true ->
  exists rv, NativeToValue v = Some rv
             /\ type_Kind (valueToCelType v) = type_Kind (Val_Type rv).
Proof.
  destruct v; try discriminate; intros _; eexists; (split; [reflexivity|]);
    reflexivity.
Qed.

Lemma document_declarations_elem valuesMap k v :
  valuesMap !! k = Some v ->
  cel_Variable k (valueToCelType v) ∈ document_declarations valuesMap.
Proof.
  intros Hk. unfold document_declarations.
  apply (list_elem_of_fmap_2 (fun kv => cel_Variable kv.1 (valueToCelType kv.2))
           (range valuesMap) (k, v)).
  rewrite range_perm. by apply elem_of_map_to_list.
Qed.

(** C9: on every call that reaches evaluation, the map of values handed to
    the program is the one the declarations were derived from: for each
    top-level key bound to a value, the options given to the environment
    declare that key with the kind classified from that very value, and this
    kind is the kind of the runtime value the interpreter sees for it. *)
Theorem declared_kind_is_runtime_kind data expression envOption prg vars :
  Call_Eval prg vars ∈ (Evaluate data expression envOption).1 ->
  exists opts,
    Call_NewEnv opts ∈ (Evaluate data expression envOption).1
    /\ forall k v, vars !! k = Some v ->
         cel_Variable k (valueToCelType v) ∈ opts
         /\ exists rv, NativeToValue v = Some rv
              /\ type_Kind (valueToCelType v) = type_Kind (Val_Type rv).
Proof.
  intros Hcall.
  run_cases data expression envOption;
    trace_member; injection Hcall as -> ->;
    (eexists; split; [apply elem_of_cons; right; apply elem_of_cons; by left|]);
    intros k v Hk; (split;
      [ unfold options; rewrite !elem_of_app; right; right;
        by apply document_declarations_elem
      | eapply valueToCelType_runtime_kind, json_Unmarshal_shape; eauto ]).
Qed.

(** C1 (as the code has it): when the document decodes, the options handed
    to the environment are the four accessor functions, then the caller's
    options in their order, then one declaration per top-level key with the
    kind classified from its value.  A name the caller declares and the
    document also has as a key is therefore declared twice, the caller's
    declaration first and the document's after it: [Evaluate] drops neither
    and gives neither precedence. *)
Theorem caller_options_precede_document_declarations
    s expression envOption valuesMap :
  json_Unmarshal s = inr valuesMap ->
  let opts := accessors s ++ envOption ++ document_declarations valuesMap in
  (exists rest,
     (Evaluate (Some s) expression envOption).1
     = Call_Unmarshal s :: Call_NewEnv opts :: rest)
  /\ document_declarations valuesMap
     ≡ₚ map (fun kv => cel_Variable kv.1 (valueToCelType kv.2))
          (map_to_list valuesMap)
  /\ forall x t v,
       cel_Variable x t ∈ envOption -> valuesMap !! x = Some v ->
       exists i j,
         opts !! i = Some (cel_Variable x t)
         /\ opts !! j = Some (cel_Variable x (valueToCelType v))
         /\ i < j.
Proof.
  intros Hjson opts. split; [|split].
  - run_cases (Some s) expression envOption; try discriminate;
      match goal with Hd : Some _ = Some _ |- _ => injection Hd as <- end;
      match goal with
      | H1 : json_Unmarshal ?x = _, H2 : json_Unmarshal ?x = _ |- _ =>
          rewrite H1 in H2; try discriminate H2; injection H2 as <-
      end; eauto.
  - unfold document_declarations. by rewrite range_perm.
  - intros x t v Hx Hv.
    apply list_elem_of_lookup in Hx as [i Hi].
    pose proof (document_declarations_elem _ _ _ Hv) as Hd.
    apply list_elem_of_lookup in Hd as [j Hj].
    exists (length (accessors s) + i),
           (length (accessors s) + (length envOption + j)).
    subst opts. split; [|split].
    + rewrite lookup_app_r by lia.
      rewrite Nat.add_comm, Nat.add_sub. by apply lookup_app_l_Some.
    + rewrite lookup_app_r by lia.
      rewrite Nat.add_comm, Nat.add_sub.
      rewrite lookup_app_r by lia.
      by rewrite Nat.add_comm, Nat.add_sub.
    + apply lookup_lt_Some in Hi. lia.
Qed.

(** C6 (as the code has it): for every non-nil data string that is neither
    a JSON object nor the JSON literal null (text that is no JSON at all, or
    an array, a string, a number or a boolean), [Evaluate] returns the
    payload-parse error with the verdict false, and the decoding is the only
    library call made: no environment is built, nothing is compiled or
    evaluated. *)
Theorem Evaluate_rejects_non_object s expression envOption :
  Json.object_or_null (json_parse s) = false ->
  exists err,
    Evaluate (Some s) expression envOption
    = ([Call_Unmarshal s],
       Return_ false
         (catcher_Error "cannot unmarshal data"
            (Some (Catcher.FromJson err)) ∅))
    /\ (catcher_Error "cannot unmarshal data" (Some (Catcher.FromJson err)) ∅
          ≫= Spec.taxonomy) = Some Spec.PayloadParseError.
Proof.
  intros Hshape.
  assert (exists err, json_Unmarshal s = inl err) as [err Herr].
  { unfold json_Unmarshal. destruct (json_parse s) as [[]|]; simpl in *;
      try discriminate; eauto. }
  exists err. split; [|done].
  unfold Evaluate, Evaluate_body. simpl. by rewrite Herr.
Qed.

(** ** The accessor functions *)


(** C3 (as the code has it): for every raw document and path, [exists]
    returns a boolean and never an error, and it returns true exactly when the
    path query [gjson.Get] over the raw text finds something at the path.
    The path is read by gjson, not by [Evaluate]; the function registered in
    the environment is closed over the raw text alone, whatever the caller's
    options and the declared variables are. *)
Theorem exists_iff_gjson_finds s path :
  (exists b,
     celExists_binding s (String path) = Returns (Bool b)
     /\ (b = true <-> Gjson.Exists (gjson_Get s path) = true)
     /\ (b = false <-> Spec.found (gjson_Get s path) = Spec.Missing))
  /\ forall expression envOption opts,
       Call_NewEnv opts ∈ (Evaluate (Some s) expression envOption).1 ->
       celExists s ∈ opts.
Proof.
  split.
  - eexists. split; [reflexivity|]. split; [done|].
    unfold Gjson.Exists, Spec.found.
    destruct (gjson_Get s path) as [ty raw str num]; simpl.
    destruct ty; simpl; destruct (String.length raw =? 0)%nat; simpl;
      split; congruence.
  - intros expression envOption opts Hcall.
    run_cases (Some s) expression envOption; try discriminate;
      match goal with Hd : Some _ = Some _ |- _ => injection Hd as <- end;
      trace_member; injection Hcall as ->;
      unfold options, accessors; apply elem_of_cons; by left.
Qed.

(** ** The classifier *)

Lemma valueToCelType_other v t :
  Go.TypeOf v = Some t -> t ∉ case_types ->
  valueToCelType v
  = if Go.may_have_methods t && has_ProtoReflect t then DynType
    else ObjectType (Go.type_String t).
Proof.
  intros Hv Hnot.
  assert (Hne : forall X, X ∈ case_types -> is_type v X = false).
  { intros X HX. unfold is_type. rewrite Hv.
    apply bool_decide_eq_false_2. intros [= ->]. by apply Hnot. }
  unfold valueToCelType, is_proto_Message.
  rewrite !Hne by (unfold case_types; set_solver).
  rewrite Hv. reflexivity.
Qed.

(** C4 (as the code has it): the classifier is a function of the dynamic type
    of its argument, by these rules in priority order: bool to Bool; string
    to String; int, int32 and int64 to Int; uint, uint32 and uint64 to Uint;
    float32 and float64 to Double; []byte to Bytes; time.Time to Timestamp;
    the two string-keyed maps to Map(String, Dyn); []interface{} to
    List(Dyn); nil to Null; a type implementing proto.Message to Dyn; any
    other type (the 8- and 16-bit integers among them) to the object type
    named by the text reflect prints for it.  Two values of unrecognized types
    receive the same type exactly when those texts are equal. *)
Theorem valueToCelType_rules :
  classifies Go.Bool BoolType
  /\ classifies Go.String StringType
  /\ (classifies Go.Int IntType /\ classifies Go.Int32 IntType
      /\ classifies Go.Int64 IntType)
  /\ (classifies Go.Uint UintType /\ classifies Go.Uint32 UintType
      /\ classifies Go.Uint64 UintType)
  /\ (classifies Go.Float32 DoubleType /\ classifies Go.Float64 DoubleType)
  /\ classifies (Go.Slice Go.Uint8) BytesType
  /\ classifies Go.time_Time TimestampType
  /\ classifies (Go.Map Go.String Go.Interface) (MapType StringType DynType)
  /\ classifies (Go.Map Go.String (Go.Pointer Go.structpb_Value))
       (MapType StringType DynType)
  /\ classifies (Go.Slice Go.Interface) (ListType DynType)
  /\ (forall v, Go.TypeOf v = None -> valueToCelType v = NullType)
  /\ (forall t, t ∉ case_types ->
        (Go.may_have_methods t && has_ProtoReflect t) = true ->
        classifies t DynType)
  /\ (forall t, unrecognized t = true ->
        classifies t (ObjectType (Go.type_String t)))
  /\ (forall t1 t2 v1 v2,
        unrecognized t1 = true -> unrecognized t2 = true ->
        Go.TypeOf v1 = Some t1 -> Go.TypeOf v2 = Some t2 ->
        (valueToCelType v1 = valueToCelType v2
         <-> Go.type_String t1 = Go.type_String t2)).
Proof.
  assert (Hun : forall t, unrecognized t = true ->
            (t ∉ case_types)
            /\ (Go.may_have_methods t && has_ProtoReflect t) = false).
  { intros t. unfold unrecognized.
    rewrite andb_true_iff, !negb_true_iff, bool_decide_eq_false. done. }
  repeat match goal with
  | |- _ /\ _ => split
  | |- classifies _ _ =>
      intros v Hv; unfold valueToCelType, is_type; rewrite Hv; reflexivity
  end.
  - intros v Hv. unfold valueToCelType, is_type. rewrite Hv. reflexivity.
  - intros t Hnot Hmsg v Hv. by rewrite (valueToCelType_other v t), Hmsg.
  - intros t [Hnot Hmsg]%Hun v Hv.
    by rewrite (valueToCelType_other v t), Hmsg.
  - intros t1 t2 v1 v2 [Hnot1 Hmsg1]%Hun [Hnot2 Hmsg2]%Hun Hv1 Hv2.
    rewrite (valueToCelType_other v1 t1), (valueToCelType_other v2 t2), Hmsg1,
      Hmsg2 by done.
    split; congruence.
Qed.

(** ** Further properties of the pipeline *)

(** X1: [Evaluate] always returns its two values: the type assertion
    [out.Value().(bool)] is only reached for a value of type Bool and never
    panics. *)
Theorem Evaluate_never_panics data expression envOption :
  exists matched err,
    (Evaluate data expression envOption).2 = Return_ matched err.
Proof. run_cases data expression envOption; eauto. Qed.

(** X2: the stages run in the order parse, environment build, compile (the
    check, then the plan), evaluate, each at most once and none skipped: the
    stages of the calls made are a prefix of that sequence. *)
Theorem Evaluate_stages_in_order data expression envOption :
  map stage_of (Evaluate data expression envOption).1
  `prefix_of` [Parse; BuildEnvironment; CompileStage; CompileStage;
               EvaluateStage].
Proof. run_cases data expression envOption; simpl; by eexists. Qed.

(** X3: when the environment cannot be built, [Evaluate] returns the
    environment error wrapping the library's error, with the verdict false,
    and stops: nothing is compiled or evaluated. *)
Theorem Evaluate_environment_error data expression envOption opts err :
  Call_NewEnv opts ∈ (Evaluate data expression envOption).1 ->
  cel_NewEnv opts = inl err ->
  (Evaluate data expression envOption).2
  = Return_ false
      (catcher_Error "failed to start CEL environment"
         (Some (Catcher.FromCel err)) ∅)
  /\ last (Evaluate data expression envOption).1 = Some (Call_NewEnv opts).
Proof.
  intros Hcall Henv.
  run_cases data expression envOption;
    trace_member; injection Hcall as ->;
    match goal with
    | H1 : cel_NewEnv ?o = _, H2 : cel_NewEnv ?o = _ |- _ =>
        rewrite H1 in H2; try discriminate H2; injection H2 as <-
    end.
  done.
Qed.

(** X4: when the evaluation call fails, [Evaluate] returns the evaluation
    error wrapping the library's error and naming the expression, with the
    verdict false. *)
Theorem Evaluate_evaluation_error data expression envOption prg vars err :
  Call_Eval prg vars ∈ (Evaluate data expression envOption).1 ->
  Prg_Eval prg vars = inl err ->
  (Evaluate data expression envOption).2
  = Return_ false
      (catcher_Error "failed to evaluate program" (Some (Catcher.FromCel err))
         {[ "expression" := Catcher.Text expression ]}).
Proof.
  intros Hcall Heval.
  run_cases data expression envOption;
    trace_member; injection Hcall as -> ->;
    match goal with
    | H1 : Prg_Eval ?p ?v = _, H2 : Prg_Eval ?p ?v = _ |- _ =>
        rewrite H1 in H2; try discriminate H2; injection H2 as <-
    end.
  done.
Qed.

(** X5: the values of a decoded document are classified Null, Bool, String,
    Double, List(Dyn) or Map(String, Dyn) only: a JSON number is always
    declared Double, never Int or Uint, and no key is declared an object
    type. *)
Theorem document_values_kinds s valuesMap k v :
  json_Unmarshal s = inr valuesMap -> valuesMap !! k = Some v ->
  valueToCelType v
  ∈ [NullType; BoolType; StringType; DoubleType; ListType DynType;
     MapType StringType DynType].
Proof.
  intros Hm Hk. pose proof (json_Unmarshal_shape _ _ _ _ Hm Hk) as Hshape.
  destruct v; try discriminate; vm_compute; set_solver.
Qed.

(** X6: a verdict of true comes with no error, and only after every stage
    ran. *)
Theorem Evaluate_true_is_a_verdict data expression envOption :
  matched_of (Evaluate data expression envOption).2 = Some true ->
  error_of (Evaluate data expression envOption).2 = None
  /\ map stage_of (Evaluate data expression envOption).1
     = [Parse; BuildEnvironment; CompileStage; CompileStage; EvaluateStage].
Proof. intros Hm. run_cases data expression envOption; done. Qed.


End Properties.

(** * The pipeline on concrete events *)

Import Cel.

(** The events and expressions of the specification's examples. *)
Example nested_event_exists :
  (Reference.Evaluate_ (Some (Reference.json_text "{'a':{'b':1}}"))
     "exists('a.b') && !exists('a.c')" []).2
  = Return_ true None.
Proof. vm_compute. reflexivity. Qed.

Example kind_mismatch_falls_back :
  (Reference.Evaluate_ (Some (Reference.json_text "{'score':'notanumber'}"))
     "safe('score', 0.0) == 0.0" []).2
  = Return_ true None.
Proof. vm_compute. reflexivity. Qed.

Example missing_field_falls_back :
  (Reference.Evaluate_ (Some (Reference.json_text "{'user':'alice','age':30}"))
     "user == 'alice' && safe('role', 'guest') == 'guest'" []).2
  = Return_ true None.
Proof. vm_compute. reflexivity. Qed.

Example arithmetic_is_not_a_verdict :
  (Reference.Evaluate_ (Some (Reference.json_text "{'age':30}")) "1 + 2" []).2
  = Return_ false
      (catcher_Error "output type is not boolean" None
         {[ "expression" := Catcher.Text "1 + 2" ]}).
Proof. vm_compute. reflexivity. Qed.

(** ** Instances of the general statements *)

(** An array is not an object: the parse error comes with the verdict
    false. *)
Lemma Evaluate_error_is_false_witness :
  matched_of (Reference.Evaluate_ (Some "[1,2]") "true" []).2 = Some false.
Proof.
  apply (Evaluate_error_is_false (H := Reference.libs) (Some "[1,2]") "true" []
           {| Catcher.msg := "cannot unmarshal data";
              Catcher.cause := Some (Catcher.FromJson Json.UnmarshalTypeError);
              Catcher.args := ∅ |}).
  vm_compute. reflexivity.
Defined.

(** A nested event: the evaluation returns the boolean true, and that is the
    verdict. *)
Lemma Evaluate_verdict_iff_boolean_witness :
  (Reference.Evaluate_ (Some (Reference.json_text "{'a':{'b':1}}"))
     "exists('a.b') && !exists('a.c')" []).2
  = Return_ true None.
Proof.
  set (data := Some (Reference.json_text "{'a':{'b':1}}")).
  set (expression := "exists('a.b') && !exists('a.c')").
  edestruct (fun prg vars =>
               Evaluate_verdict_iff_boolean (H := Reference.libs)
                 data expression [] prg vars (Bool true))
    as (Hiff & Hout & _).
  - apply list_elem_of_lookup. exists 4. reflexivity.
  - vm_compute. reflexivity.
  - destruct (proj1 Hiff eq_refl) as [b Hb].
    change (Evaluate data expression []) with
      (Reference.Evaluate_ data expression []) in Hb, Hout.
    rewrite Hb. specialize (Hout b Hb). by injection Hout as <-.
Defined.

(** Two mistakes in one expression: both are in the error. *)
Lemma Evaluate_compile_error_witness :
  (Reference.Evaluate_ (Some (Reference.json_text "{'a':1}"))
     "b && safe(1, 2)" []).2
  = Return_ false
      (catcher_Error "failed to compile expression" None
         {[ "expression" := Catcher.Text "b && safe(1, 2)";
            "issues" := Catcher.Issues
              [ "undeclared reference to 'b'";
                "found no matching overload for 'safe'" ] ]}).
Proof.
  set (data := Some (Reference.json_text "{'a':1}")).
  set (expression := "b && safe(1, 2)").
  edestruct (fun env =>
               Evaluate_compile_error (H := Reference.libs)
                 data expression [] env None
                 [ "undeclared reference to 'b'";
                   "found no matching overload for 'safe'" ]
                 (Reference.join
                    [ "undeclared reference to 'b'";
                      "found no matching overload for 'safe'" ]))
    as (Hret & _).
  - apply list_elem_of_lookup. exists 2. reflexivity.
  - vm_compute. reflexivity.
  - vm_compute. reflexivity.
  - exact Hret.
Defined.

(** The declarations of the keys of an event carry the kinds of its values. *)
Lemma declared_kind_is_runtime_kind_witness :
  exists opts,
    Call_NewEnv opts
      ∈ (Reference.Evaluate_
           (Some (Reference.json_text "{'user':'alice','age':30}"))
           "user == 'alice'" []).1
    /\ Reference.Variable_ "age" DoubleType ∈ opts
    /\ Reference.Variable_ "user" StringType ∈ opts.
Proof.
  set (data := Some (Reference.json_text "{'user':'alice','age':30}")).
  set (expression := "user == 'alice'").
  edestruct (declared_kind_is_runtime_kind (H := Reference.libs)
               data expression [])
    as (opts & Hopts & Hdecl).
  - apply list_elem_of_lookup. exists 4. reflexivity.
  - exists opts. split; [exact Hopts|]. split.
    + refine (proj1 (Hdecl "age" (Go.Float64V 30%float) _)).
      vm_compute. reflexivity.
    + refine (proj1 (Hdecl "user" (Go.StringV "alice") _)).
      vm_compute. reflexivity.
Defined.

(** The caller declares [x] an integer, the event holds a string under [x]:
    both declarations are handed over, the caller's first. *)
Lemma caller_options_precede_document_declarations_witness :
  let s := Reference.json_text "{'x':'s'}" in
  let opts :=
    accessors (H := Reference.libs) s
    ++ [Reference.Variable_ "x" IntType]
    ++ document_declarations (H := Reference.libs) {[ "x" := Go.StringV "s" ]} in
  exists i j,
    opts !! i = Some (Reference.Variable_ "x" IntType)
    /\ opts !! j = Some (Reference.Variable_ "x" StringType)
    /\ i < j.
Proof.
  intros s opts.
  refine (proj2 (proj2
    (caller_options_precede_document_declarations (H := Reference.libs)
       s "x + 1 == 2" [Reference.Variable_ "x" IntType]
       {[ "x" := Go.StringV "s" ]} _))
    "x" IntType (Go.StringV "s") _ _).
  - vm_compute. reflexivity.
  - apply elem_of_cons. by left.
  - vm_compute. reflexivity.
Defined.

(** An array is well-formed JSON and no object: it is rejected at the first
    stage. *)
Lemma Evaluate_rejects_non_object_witness :
  exists err,
    Reference.Evaluate_ (Some "[1,2]") "true" []
    = ([Call_Unmarshal "[1,2]"],
       Return_ false
         (catcher_Error "cannot unmarshal data"
            (Some (Catcher.FromJson err)) ∅)).
Proof.
  destruct (Evaluate_rejects_non_object (H := Reference.libs) "[1,2]" "true" [])
    as (err & Hrun & _).
  - vm_compute. reflexivity.
  - exists err. exact Hrun.
Defined.

(** ** Where the code departs from the specification *)

(** C1, refuted: the event has the key [x] with a string, the caller declares
    [x] an integer.  The expression is not compiled against the caller's
    kind: the checker refuses the second declaration of [x] and [Evaluate]
    returns the compile error.  Without the key in the event the same
    expression does compile against the caller's declaration. *)
Lemma caller_declaration_does_not_take_precedence :
  (Reference.Evaluate_ (Some (Reference.json_text "{'x':'s'}"))
     "x + 1 == 2" [Reference.Variable_ "x" IntType]).2
  = Return_ false
      (catcher_Error "failed to compile expression" None
         {[ "expression" := Catcher.Text "x + 1 == 2";
            "issues" := Catcher.Issues
              [ "overlapping identifier for name 'x'" ] ]})
  /\ map stage_of
       (Reference.Evaluate_ (Some (Reference.json_text "{'y':'s'}"))
          "x + 1 == 2" [Reference.Variable_ "x" IntType]).1
     = [Parse; BuildEnvironment; CompileStage; CompileStage; EvaluateStage].
Proof. split; vm_compute; reflexivity. Qed.

(** C6, refuted: the text [null] is not a JSON object, and [Evaluate] does
    not fail on it: the environment is built, the expression compiled and
    evaluated, and the verdict returned without an error. *)
Lemma null_document_is_not_rejected :
  Reference.parse "null" = Some Json.Null
  /\ Json.is_object Json.Null = false
  /\ (Reference.Evaluate_ (Some "null") "true" []).2 = Return_ true None
  /\ map stage_of (Reference.Evaluate_ (Some "null") "true" []).1
     = [Parse; BuildEnvironment; CompileStage; CompileStage; EvaluateStage].
Proof. repeat split; vm_compute; reflexivity. Qed.

(** C3, refuted: in the event the value 1 is reachable at [a.b[0].c] in the
    dotted and bracket syntax of the specification, and [exists] answers
    false for that path; it answers true for [a.b.0.c], which that syntax
    does not reach. *)
Lemma exists_does_not_read_brackets :
  let raw := Reference.json_text "{'a':{'b':[{'c':1}]}}" in
  Spec.reachable (H := Reference.libs) raw "a.b[0].c" = true
  /\ celExists_binding (H := Reference.libs) raw (String "a.b[0].c")
     = Returns (Bool false)
  /\ (Reference.Evaluate_ (Some raw) "exists('a.b[0].c')" []).2
     = Return_ false None
  /\ Spec.reachable (H := Reference.libs) raw "a.b.0.c" = false
  /\ celExists_binding (H := Reference.libs) raw (String "a.b.0.c")
     = Returns (Bool true).
Proof. repeat split; vm_compute; reflexivity. Qed.

(** C4, refuted: int8 is a signed and uint16 an unsigned integer type, and
    neither is classified Int or Uint; two different types that are declared
    under one name in packages of one name receive the same object type. *)
Lemma valueToCelType_misses_small_integers_and_aliases :
  let classify := valueToCelType (H := Reference.libs) in
  let t1 := Go.Defined "example.com/edge/event" "event" "Alert" in
  let t2 := Go.Defined "example.com/core/event" "event" "Alert" in
  (Go.signed_integer Go.Int8 = true
   /\ classify (Go.Opaque Go.Int8) = ObjectType "int8")
  /\ (Go.unsigned_integer Go.Uint16 = true
      /\ classify (Go.Opaque Go.Uint16) = ObjectType "uint16")
  /\ (t1 <> t2
      /\ unrecognized (H := Reference.libs) t1 = true
      /\ unrecognized (H := Reference.libs) t2 = true
      /\ classify (Go.Opaque t1) = classify (Go.Opaque t2)).
Proof.
  intros classify t1 t2.
  repeat split; try (vm_compute; reflexivity).
  discriminate.
Qed.

(** ** Instances of the further properties *)

(** A caller option that fails stops the run at the environment. *)
Lemma Evaluate_environment_error_witness :
  (Reference.Evaluate_ (Some "{}") "true"
     [fun _ => inl "unsupported option"]).2
  = Return_ false
      (catcher_Error "failed to start CEL environment"
         (Some (Catcher.FromCel "unsupported option")) ∅).
Proof.
  edestruct (fun opts =>
               Evaluate_environment_error (H := Reference.libs)
                 (Some "{}") "true" [fun _ => inl "unsupported option"]
                 opts "unsupported option")
    as (Hret & _).
  - apply list_elem_of_lookup. exists 1. reflexivity.
  - vm_compute. reflexivity.
  - exact Hret.
Defined.

(** A variable the caller declares is bound to no value at evaluation. *)
Lemma Evaluate_evaluation_error_witness :
  (Reference.Evaluate_ (Some (Reference.json_text "{'y':'s'}"))
     "x + 1 == 2" [Reference.Variable_ "x" IntType]).2
  = Return_ false
      (catcher_Error "failed to evaluate program"
         (Some (Catcher.FromCel "no such attribute(s): x"))
         {[ "expression" := Catcher.Text "x + 1 == 2" ]}).
Proof.
  edestruct (fun prg vars =>
               Evaluate_evaluation_error (H := Reference.libs)
                 (Some (Reference.json_text "{'y':'s'}"))
                 "x + 1 == 2" [Reference.Variable_ "x" IntType]
                 prg vars "no such attribute(s): x")
    as [].
  - apply list_elem_of_lookup. exists 4. reflexivity.
  - vm_compute. reflexivity.
  - reflexivity.
Defined.

(** The whole number 30 of an event is declared a double. *)
Lemma document_values_kinds_witness :
  valueToCelType (H := Reference.libs) (Go.Float64V 30%float)
  ∈ [NullType; BoolType; StringType; DoubleType; ListType DynType;
     MapType StringType DynType].
Proof.
  apply (document_values_kinds (H := Reference.libs)
           (Reference.json_text "{'age':30}")
           {[ "age" := Go.Float64V 30%float ]} "age").
  - vm_compute. reflexivity.
  - vm_compute. reflexivity.
Defined.

(** The verdict true of the nested event came through every stage. *)
Lemma Evaluate_true_is_a_verdict_witness :
  error_of
    (Reference.Evaluate_ (Some (Reference.json_text "{'a':{'b':1}}"))
       "exists('a.b') && !exists('a.c')" []).2 = None
  /\ map stage_of
       (Reference.Evaluate_ (Some (Reference.json_text "{'a':{'b':1}}"))
          "exists('a.b') && !exists('a.c')" []).1
     = [Parse; BuildEnvironment; CompileStage; CompileStage; EvaluateStage].
Proof.
  apply (Evaluate_true_is_a_verdict (H := Reference.libs)
           (Some (Reference.json_text "{'a':{'b':1}}"))
           "exists('a.b') && !exists('a.c')" []).
  vm_compute. reflexivity.
Defined.

(** * Properties of the configuration helpers *)

Section HelpersProperties.

Import Helpers.

Variable TrimSpace : string -> string.
Variable NumError_Error : NumError -> string.

Lemma getEnvStr_ext e1 e2 name def required :
  (forall n, Getenv e1 n = Getenv e2 n) ->
  getEnvStr e1 name def required = getEnvStr e2 name def required.
Proof. intros Hext. unfold getEnvStr. by rewrite Hext. Qed.

Lemma Getenv_empty_value environ name n :
  Getenv (<[name := ""]> environ) n = Getenv (delete name environ) n.
Proof.
  unfold Getenv. destruct (decide (name = n)) as [->|Hne].
  - by rewrite lookup_insert_eq, lookup_delete_eq.
  - by rewrite lookup_insert_ne, lookup_delete_ne.
Qed.

(** X8: a variable set to the empty text is read exactly as one that is not
    set: [getEnvStr], [getEnvInt], [getEnvStrSlice] and [getEnv] return the
    same on both environments (so a required variable that is set but empty
    is refused as missing). *)
Theorem empty_value_is_unset environ name :
  let set := <[name := ""]> environ in
  let unset := delete name environ in
  (forall n def required,
     getEnvStr set n def required = getEnvStr unset n def required)
  /\ (forall n def required,
        getEnvInt NumError_Error set n def required
        = getEnvInt NumError_Error unset n def required)
  /\ (forall n def required,
        getEnvStrSlice TrimSpace set n def required
        = getEnvStrSlice TrimSpace unset n def required)
  /\ getEnv TrimSpace NumError_Error set
     = getEnv TrimSpace NumError_Error unset.
Proof.
  intros set unset.
  assert (Hstr : forall n def required,
            getEnvStr set n def required = getEnvStr unset n def required).
  { intros. apply getEnvStr_ext. intros. apply Getenv_empty_value. }
  repeat split; intros;
    unfold getEnv, getEnvInt, getEnvStrSlice; by rewrite ?Hstr.
Qed.

(** X9: for a variable that holds a non-empty text, [getEnvInt] looks at
    neither the default nor the required flag: a text that is no integer is an
    error even when a valid default was given. *)
Theorem getEnvInt_no_fallback environ name def def' required required' :
  Getenv environ name <> "" ->
  getEnvInt NumError_Error environ name def required
  = getEnvInt NumError_Error environ name def' required'
  /\ (forall err, Atoi (Getenv environ name) = inl err ->
        getEnvInt NumError_Error environ name def required
        = inl (ErrorF (NumError_Error err) [])).
Proof.
  intros Hset. unfold getEnvInt, getEnvStr.
  rewrite !decide_False by done. split; [done|].
  by intros err ->.
Qed.

(** ** Integers *)

Lemma digit_val_range c :
  Chars.is_digit c = true -> (0 <= Chars.digit_val c <= 9)%Z.
Proof.
  unfold Chars.is_digit, Chars.digit_val. intros [H1 H2]%andb_true_iff.
  apply Nat.leb_le in H1, H2. lia.
Qed.

Lemma decimal_from_ge cs n :
  (0 <= n)%Z -> forallb Chars.is_digit cs = true ->
  (n <= fold_left (fun acc c => acc * 10 + Chars.digit_val c) cs n)%Z.
Proof.
  revert n. induction cs as [|c r IH]; simpl; intros n Hn Hd; [lia|].
  apply andb_true_iff in Hd as [Hc Hr].
  pose proof (digit_val_range c Hc).
  etrans; [|apply IH]; [lia|lia|done].
Qed.

Lemma scan_spec cs n m :
  (0 <= n <= 2 ^ 64 - 1)%Z ->
  scan cs n = inr m
  <-> forallb Chars.is_digit cs = true
      /\ m = fold_left (fun acc c => acc * 10 + Chars.digit_val c)%Z cs n
      /\ (m <= 2 ^ 64 - 1)%Z.
Proof.
  revert n. induction cs as [|c r IH]; simpl; intros n Hn.
  - split; [intros [= <-]; split; [done|split; [done|lia]]|].
    by intros (_ & -> & _).
  - destruct (Chars.is_digit c) eqn:Hc; simpl;
      [|split; [done|by intros [? _]]].
    pose proof (digit_val_range c Hc) as Hv.
    destruct (Z.ltb_spec (2 ^ 64 - 1) (n * 10 + Chars.digit_val c)) as [Hov|Hok].
    + split; [done|]. intros (Hr & -> & Hm).
      pose proof (decimal_from_ge r (n * 10 + Chars.digit_val c)
                    ltac:(lia) Hr). lia.
    + apply IH. lia.
Qed.

Lemma scan_error_free cs n :
  (0 <= n)%Z -> forallb Chars.is_digit cs = true ->
  (fold_left (fun acc c => acc * 10 + Chars.digit_val c) cs n <= 2 ^ 64 - 1)%Z ->
  scan cs n
  = inr (fold_left (fun acc c => acc * 10 + Chars.digit_val c)%Z cs n).
Proof.
  intros Hn Hd Hm. apply scan_spec; [|done].
  pose proof (decimal_from_ge cs n Hn Hd). lia.
Qed.

Lemma digit_is_no_sign c :
  Chars.is_digit c = true -> Ascii.eqb c "-" = false /\ Ascii.eqb c "+" = false.
Proof.
  intros Hc. split; apply Ascii.eqb_neq; intros ->; discriminate Hc.
Qed.

Lemma Atoi_core (s : string) (neg : bool) (digits : list ascii) n :
  match digits with
  | [] => inl {| Num := s; Err := ErrSyntax |}
  | _ =>
      match scan digits 0 with
      | inl e => inl {| Num := s; Err := e |}
      | inr un =>
          if negb neg && (2 ^ 63 <=? un)%Z
          then inl {| Num := s; Err := ErrRange |}
          else if neg && (2 ^ 63 <? un)%Z
          then inl {| Num := s; Err := ErrRange |}
          else inr (if neg then (- un)%Z else un)
      end
  end = inr n
  <-> digits <> []
      /\ forallb Chars.is_digit digits = true
      /\ n = (if neg then (- Chars.decimal digits)%Z else Chars.decimal digits)
      /\ (- 2 ^ 63 <= n <= 2 ^ 63 - 1)%Z.
Proof.
  destruct digits as [|d ds]; [split; [done|by intros [? _]]|].
  set (digits := d :: ds). unfold Chars.decimal.
  destruct (scan digits 0) as [e|un] eqn:Hscan.
  - split; [done|]. intros (_ & Hd & -> & Hrange).
    rewrite scan_error_free in Hscan; [done|lia|done|].
    destruct neg; lia.
  - apply scan_spec in Hscan as (Hd & -> & Hmax); [|lia].
    pose proof (decimal_from_ge digits 0 ltac:(lia) Hd) as Hge.
    set (v := fold_left _ digits 0%Z) in *.
    destruct neg; simpl.
    + destruct (Z.ltb_spec (2 ^ 63) v).
      * split; [done|]. intros (_ & _ & -> & ?). lia.
      * split; [intros [= <-]|intros (_ & _ & -> & _)]; [|done].
        repeat split; try done; lia.
    + destruct (Z.leb_spec (2 ^ 63) v).
      * split; [done|]. intros (_ & _ & -> & ?). lia.
      * split; [intros [= <-]|intros (_ & _ & -> & _)]; [|done].
        repeat split; try done; lia.
Qed.

Lemma Atoi_numeral s n :
  Atoi s = inr n <-> numeral s n /\ (- 2 ^ 63 <= n <= 2 ^ 63 - 1)%Z.
Proof.
  unfold Atoi, numeral.
  destruct (list_ascii_of_string s) as [|c r] eqn:Hs.
  - split; [done|]. intros [(sign & digits & Heq & _ & Hne & _) _].
    symmetry in Heq. apply app_eq_nil in Heq as [_ ->]. done.
  - destruct (Ascii.eqb_spec c "-") as [->|Hminus].
    { rewrite (Atoi_core s true r n). split.
      - intros (Hne & Hd & -> & Hrange). split; [|done].
        exists ["-"%char], r. rewrite decide_True by done.
        repeat split; auto.
      - intros [(sign & digits & Heq & Hsign & Hne & Hd & ->) Hrange].
        destruct Hsign as [->| [->| ->]]; simpl in Heq.
        + subst digits. simpl in Hd. done.
        + done.
        + injection Heq as <-. by rewrite decide_True in Hrange |- *. }
    destruct (Ascii.eqb_spec c "+") as [->|Hplus].
    { rewrite (Atoi_core s false r n). split.
      - intros (Hne & Hd & -> & Hrange). split; [|done].
        exists ["+"%char], r. rewrite decide_False by done.
        repeat split; auto.
      - intros [(sign & digits & Heq & Hsign & Hne & Hd & ->) Hrange].
        destruct Hsign as [->| [->| ->]]; simpl in Heq.
        + subst digits. simpl in Hd. done.
        + injection Heq as <-. by rewrite decide_False in Hrange |- *.
        + done. }
    rewrite (Atoi_core s false (c :: r) n). split.
    + intros (Hne & Hd & -> & Hrange). split; [|done].
      exists [], (c :: r). rewrite decide_False by done.
      repeat split; auto.
    + intros [(sign & digits & Heq & Hsign & Hne & Hd & ->) Hrange].
      destruct Hsign as [->| [->| ->]]; simpl in Heq.
      * subst digits. by rewrite decide_False in Hrange |- *.
      * by injection Heq as -> _.
      * by injection Heq as -> _.
Qed.

(** X10: [getEnvInt] returns a number exactly for the decimal numerals of the
    int64 range: an optional sign and at least one digit, nothing else (no
    blank around it, no underscore, no point, no hexadecimal), and the number
    returned is the one the numeral writes.  The numeral is the value of the
    variable, or the default when the value is empty and not required. *)
Theorem getEnvInt_accepts_numerals environ name def required n :
  getEnvInt NumError_Error environ name def required = inr n
  <-> (Getenv environ name = "" -> required = false)
      /\ numeral (effective environ name def) n
      /\ (- 2 ^ 63 <= n <= 2 ^ 63 - 1)%Z.
Proof.
  unfold getEnvInt, getEnvStr, effective.
  destruct (decide (Getenv environ name = "")) as [Hempty|Hset].
  - destruct required.
    + split; [done|]. intros [Hreq _]. by specialize (Hreq Hempty).
    + rewrite <- Atoi_numeral. destruct (Atoi def); intuition congruence.
  - rewrite <- Atoi_numeral.
    destruct (Atoi (Getenv environ name)); intuition congruence.
Qed.

(** ** Lists of values *)

Lemma text_app (a b : list ascii) :
  string_of_list_ascii (a ++ b)
  = string_of_list_ascii a +:+ string_of_list_ascii b.
Proof. induction a as [|c a IH]; simpl; [done|by rewrite IH]. Qed.

Lemma split_chars_nonempty sep cs cur : split_chars sep cs cur <> [].
Proof. revert cur. induction cs as [|c r IH]; intros cur; simpl;
  [done|by destruct (Ascii.eqb c sep)]. Qed.

Lemma Join_cons p parts sep :
  parts <> [] -> Join (p :: parts) sep = p +:+ String.String sep (Join parts sep).
Proof. by destruct parts. Qed.

Lemma split_chars_join sep cs cur :
  Join (split_chars sep cs cur) sep = string_of_list_ascii (rev cur ++ cs).
Proof.
  revert cur. induction cs as [|c r IH]; intros cur; simpl.
  - by rewrite app_nil_r.
  - destruct (Ascii.eqb_spec c sep) as [->|Hne].
    + rewrite Join_cons by apply split_chars_nonempty.
      rewrite IH. simpl. by rewrite text_app.
    + rewrite IH. simpl. by rewrite <- app_assoc.
Qed.

Lemma count_char_text sep (cs : list ascii) :
  count_char sep (string_of_list_ascii cs) = length (filter (fun x => x = sep) cs).
Proof. unfold count_char. by rewrite list_ascii_of_string_of_list_ascii. Qed.

Lemma no_separator_rev (sep : ascii) (cur : list ascii) :
  Forall (fun x => x <> sep) cur ->
  length (filter (fun x => x = sep) (rev cur)) = 0.
Proof.
  induction 1 as [|x cur Hx _ IH]; [done|]. simpl.
  rewrite filter_app, length_app, IH.
  by rewrite filter_cons_False by done.
Qed.

Lemma split_chars_pieces sep cs cur :
  Forall (fun x => x <> sep) cur ->
  Forall (fun p => count_char sep p = 0) (split_chars sep cs cur)
  /\ length (split_chars sep cs cur)
     = S (length (filter (fun x => x = sep) cs)).
Proof.
  revert cur. induction cs as [|c r IH]; intros cur Hcur; simpl.
  - split; [|done]. constructor; [|done].
    rewrite count_char_text. by apply no_separator_rev.
  - destruct (Ascii.eqb_spec c sep) as [->|Hne].
    + destruct (IH [] ltac:(done)) as [Hp Hl].
      rewrite filter_cons_True by done. simpl. rewrite Hl. split; [|done].
      constructor; [|done]. rewrite count_char_text.
      by apply no_separator_rev.
    + rewrite filter_cons_False by done. apply IH. by constructor.
Qed.

Lemma fold_left_items (pieces : list string) (acc : list string) :
  fold_left (fun items item => items ++ [TrimSpace item]) pieces acc
  = acc ++ map TrimSpace pieces.
Proof.
  revert acc. induction pieces as [|p r IH]; intros acc; simpl.
  - by rewrite app_nil_r.
  - rewrite IH. by rewrite <- app_assoc.
Qed.

Lemma getEnvStrSlice_pieces environ name def required items :
  getEnvStrSlice TrimSpace environ name def required = inr items ->
  exists str,
    getEnvStr environ name def required = inr str
    /\ items = map TrimSpace (Split str ",")
    /\ Join (Split str ",") "," = str
    /\ Forall (fun p => count_char "," p = 0) (Split str ",")
    /\ length items = S (count_char "," str).
Proof.
  unfold getEnvStrSlice.
  destruct (getEnvStr environ name def required) as [e|str]; [done|].
  intros [= <-]. exists str. rewrite fold_left_items.
  unfold Split.
  destruct (split_chars_pieces "," (list_ascii_of_string str) [] ltac:(done))
    as [Hp Hl].
  repeat split; try done.
  - rewrite split_chars_join. simpl. apply string_of_list_ascii_of_string.
  - simpl. by rewrite length_map, Hl.
Qed.

(** X11: when [getEnvStrSlice] returns a list, the list is never empty: it
    holds the trimmed pieces of the text between its commas, one more item
    than the text has commas, empty pieces included (an unset variable with
    an empty default gives one empty item); the pieces hold no comma and,
    joined by commas, give the text back. *)
Theorem getEnvStrSlice_items environ name def required items :
  getEnvStrSlice TrimSpace environ name def required = inr items ->
  exists str pieces,
    getEnvStr environ name def required = inr str
    /\ items = map TrimSpace pieces
    /\ Join pieces "," = str
    /\ Forall (fun p => count_char "," p = 0) pieces
    /\ length items = S (count_char "," str).
Proof.
  intros Hitems.
  destruct (getEnvStrSlice_pieces _ _ _ _ _ Hitems) as (str & Hstr).
  by exists str, (Split str ",").
Qed.

(** ** The environment record *)

Lemma getEnvStr_required environ name def s :
  getEnvStr environ name def true = inr s
  <-> Getenv environ name = s /\ s <> "".
Proof.
  unfold getEnvStr. destruct (decide (Getenv environ name = "")) as [He|Hne].
  - split; [done|]. intros [<- Hs]. done.
  - split; [by intros [= <-]|]. by intros [-> _].
Qed.

Lemma getEnvInt_optional environ name def d :
  Atoi def = inr d ->
  (exists n, getEnvInt NumError_Error environ name def false = inr n)
  <-> valid_int environ name.
Proof.
  intros Hdef. unfold getEnvInt, getEnvStr, valid_int.
  destruct (decide (Getenv environ name = "")) as [He|Hne].
  - rewrite Hdef. split; [by left|by exists d].
  - destruct (Atoi (Getenv environ name)) as [err|n].
    + split; [by intros [n [=]]|]. by intros [?|[n [=]]].
    + split; [by right; exists n|by exists n].
Qed.

Lemma getEnvInt_value environ name def d n :
  Atoi def = inr d ->
  getEnvInt NumError_Error environ name def false = inr n ->
  Atoi (effective environ name def) = inr n
  /\ (Getenv environ name = "" -> n = d).
Proof.
  intros Hdef. unfold getEnvInt, getEnvStr, effective.
  destruct (decide (Getenv environ name = "")) as [He|Hne].
  - rewrite Hdef. intros [= <-]. done.
  - destruct (Atoi (Getenv environ name)); [done|]. intros [= <-]. done.
Qed.

Lemma getEnvStrSlice_required environ name def :
  (exists items, getEnvStrSlice TrimSpace environ name def true = inr items)
  <-> Getenv environ name <> "".
Proof.
  unfold getEnvStrSlice, getEnvStr.
  destruct (decide (Getenv environ name = "")) as [He|Hne].
  - split; [by intros [items [=]]|done].
  - split; [done|]. intros _. by eexists.
Qed.

Lemma Atoi_8082 : Atoi "8082" = inr 8082%Z.
Proof. vm_compute. reflexivity. Qed.
Lemma Atoi_8080 : Atoi "8080" = inr 8080%Z.
Proof. vm_compute. reflexivity. Qed.
Lemma Atoi_8081 : Atoi "8081" = inr 8081%Z.
Proof. vm_compute. reflexivity. Qed.
Lemma Atoi_200 : Atoi "200" = inr 200%Z.
Proof. vm_compute. reflexivity. Qed.

(** X12: [getEnv] returns a record, instead of panicking, exactly when
    WORK_DIR, SEARCH_NODES and RULES_REPOSITORY are set to non-empty values
    and each of CLUSTER_PORT, REST_PORT, GRPC_PORT and LOG_LEVEL is empty,
    unset or an integer that [strconv.Atoi] reads. *)
Theorem getEnv_returns_iff environ :
  (exists env, getEnv TrimSpace NumError_Error environ = inr env)
  <-> valid_int environ "CLUSTER_PORT"
      /\ valid_int environ "REST_PORT"
      /\ valid_int environ "GRPC_PORT"
      /\ Getenv environ "WORK_DIR" <> ""
      /\ Getenv environ "SEARCH_NODES" <> ""
      /\ Getenv environ "RULES_REPOSITORY" <> ""
      /\ valid_int environ "LOG_LEVEL".
Proof.
  rewrite <- (getEnvInt_optional environ "CLUSTER_PORT" _ _ Atoi_8082).
  rewrite <- (getEnvInt_optional environ "REST_PORT" _ _ Atoi_8080).
  rewrite <- (getEnvInt_optional environ "GRPC_PORT" _ _ Atoi_8081).
  rewrite <- (getEnvInt_optional environ "LOG_LEVEL" _ _ Atoi_200).
  rewrite <- (getEnvStrSlice_required environ "SEARCH_NODES" "").
  unfold getEnv.
  destruct (getEnvInt NumError_Error environ "CLUSTER_PORT" "8082" false)
    as [e|cp]; [split; [by intros [? [=]]|by intros [[? [=]] _]]|].
  destruct (getEnvInt NumError_Error environ "REST_PORT" "8080" false)
    as [e|rp]; [split; [by intros [? [=]]|by intros (_ & [? [=]] & _)]|].
  destruct (getEnvInt NumError_Error environ "GRPC_PORT" "8081" false)
    as [e|gp]; [split; [by intros [? [=]]|by intros (_ & _ & [? [=]] & _)]|].
  destruct (getEnvStr environ "WORK_DIR" "" true) as [e|wd] eqn:Hwd.
  { split; [by intros [? [=]]|]. intros (_ & _ & _ & Hw & _). exfalso.
    unfold getEnvStr in Hwd. by rewrite decide_False in Hwd by done. }
  apply getEnvStr_required in Hwd as [Hwd Hwdne].
  destruct (getEnvStrSlice TrimSpace environ "SEARCH_NODES" "" true)
    as [e|sn].
  { split; [by intros [? [=]]|by intros (_ & _ & _ & _ & [? [=]] & _)]. }
  destruct (getEnvStr environ "RULES_REPOSITORY" "" true) as [e|rr] eqn:Hrr.
  { split; [by intros [? [=]]|]. intros (_ & _ & _ & _ & _ & Hr & _).
    exfalso. unfold getEnvStr in Hrr. by rewrite decide_False in Hrr by done. }
  apply getEnvStr_required in Hrr as [Hrr Hrrne].
  destruct (getEnvInt NumError_Error environ "LOG_LEVEL" "200" false)
    as [e|ll].
  { split; [by intros [? [=]]|by intros (_ & _ & _ & _ & _ & _ & [? [=]])]. }
  split; [|by eexists]. intros _. rewrite Hwd, Hrr.
  repeat split; by eauto.
Qed.

(** X13: the record [getEnv] returns: each number is what [strconv.Atoi]
    reads in the variable, or the default 8082, 8080, 8081 and 200 when the
    variable is empty or unset, and fits 64 bits; the work directory and the
    rules repository are the values of their variables and are not empty;
    the search nodes are the trimmed pieces of SEARCH_NODES between its
    commas, at least one. *)
Theorem getEnv_record environ env :
  getEnv TrimSpace NumError_Error environ = inr env ->
  (Atoi (effective environ "CLUSTER_PORT" "8082") = inr (ClusterPort env)
   /\ (Getenv environ "CLUSTER_PORT" = "" -> ClusterPort env = 8082%Z))
  /\ (Atoi (effective environ "REST_PORT" "8080") = inr (RestPort env)
      /\ (Getenv environ "REST_PORT" = "" -> RestPort env = 8080%Z))
  /\ (Atoi (effective environ "GRPC_PORT" "8081") = inr (GrpcPort env)
      /\ (Getenv environ "GRPC_PORT" = "" -> GrpcPort env = 8081%Z))
  /\ (Atoi (effective environ "LOG_LEVEL" "200") = inr (LogLevel env)
      /\ (Getenv environ "LOG_LEVEL" = "" -> LogLevel env = 200%Z))
  /\ Forall (fun n => - 2 ^ 63 <= n <= 2 ^ 63 - 1)%Z
       [ClusterPort env; RestPort env; GrpcPort env; LogLevel env]
  /\ (Workdir env = Getenv environ "WORK_DIR" /\ Workdir env <> "")
  /\ (RulesRepository env = Getenv environ "RULES_REPOSITORY"
      /\ RulesRepository env <> "")
  /\ SearchNodes env
     = map TrimSpace (Split (Getenv environ "SEARCH_NODES") ",")
  /\ length (SearchNodes env)
     = S (count_char "," (Getenv environ "SEARCH_NODES")).
Proof.
  unfold getEnv.
  destruct (getEnvInt NumError_Error environ "CLUSTER_PORT" "8082" false)
    as [e|cp] eqn:Hcp; [done|].
  destruct (getEnvInt NumError_Error environ "REST_PORT" "8080" false)
    as [e|rp] eqn:Hrp; [done|].
  destruct (getEnvInt NumError_Error environ "GRPC_PORT" "8081" false)
    as [e|gp] eqn:Hgp; [done|].
  destruct (getEnvStr environ "WORK_DIR" "" true) as [e|wd] eqn:Hwd; [done|].
  destruct (getEnvStrSlice TrimSpace environ "SEARCH_NODES" "" true)
    as [e|sn] eqn:Hsn; [done|].
  destruct (getEnvStr environ "RULES_REPOSITORY" "" true)
    as [e|rr] eqn:Hrr; [done|].
  destruct (getEnvInt NumError_Error environ "LOG_LEVEL" "200" false)
    as [e|ll] eqn:Hll; [done|].
  intros [= <-]. simpl.
  apply (getEnvInt_value _ _ _ _ _ Atoi_8082) in Hcp.
  apply (getEnvInt_value _ _ _ _ _ Atoi_8080) in Hrp.
  apply (getEnvInt_value _ _ _ _ _ Atoi_8081) in Hgp.
  apply (getEnvInt_value _ _ _ _ _ Atoi_200) in Hll.
  apply getEnvStr_required in Hwd as [Hwd Hwdne].
  apply getEnvStr_required in Hrr as [Hrr Hrrne].
  pose proof (getEnvStrSlice_pieces _ _ _ _ _ Hsn)
    as (str & Hstr & _ & _ & _ & Hlen).
  apply getEnvStr_required in Hstr as [Hstr _].
  assert (Hnodes : sn = map TrimSpace (Split (Getenv environ "SEARCH_NODES") ",")).
  { revert Hsn. unfold getEnvStrSlice, getEnvStr.
    destruct (decide (Getenv environ "SEARCH_NODES" = "")); [done|].
    intros [= <-]. by rewrite fold_left_items. }
  repeat split; try tauto; try congruence.
  repeat constructor;
    match goal with
    | H : Atoi _ = inr ?n /\ _ |- context [?n] =>
        destruct H as [H _]; apply Atoi_numeral in H; tauto
    end.
Qed.

(** X14: when [getEnv] panics, the error is that of one variable: either
    one of WORK_DIR, SEARCH_NODES and RULES_REPOSITORY is empty or unset and
    the error is the required-configuration error naming it, or one of
    CLUSTER_PORT, REST_PORT, GRPC_PORT and LOG_LEVEL holds a non-empty text
    that [strconv.Atoi] rejects and the message of that number error is
    used as the format of the logged error, with no arguments. *)
Theorem getEnv_panic_names_a_variable environ e :
  getEnv TrimSpace NumError_Error environ = inl e ->
  (exists name,
      name ∈ ["WORK_DIR"; "SEARCH_NODES"; "RULES_REPOSITORY"]
      /\ Getenv environ name = ""
      /\ e = ErrorF "configuration required: %s" [name])
  \/ (exists name err,
      name ∈ ["CLUSTER_PORT"; "REST_PORT"; "GRPC_PORT"; "LOG_LEVEL"]
      /\ Getenv environ name <> ""
      /\ Atoi (Getenv environ name) = inl err
      /\ e = ErrorF (NumError_Error err) []).
Proof.
  assert (Hint : forall name def d err,
    Atoi def = inr d ->
    getEnvInt NumError_Error environ name def false = inl err ->
    exists nerr, Getenv environ name <> ""
      /\ Atoi (Getenv environ name) = inl nerr
      /\ err = ErrorF (NumError_Error nerr) []).
  { intros name def d err Hdef. unfold getEnvInt, getEnvStr.
    destruct (decide (Getenv environ name = "")) as [He|Hne].
    - by rewrite Hdef.
    - destruct (Atoi (Getenv environ name)) as [nerr|n]; [|done].
      intros [= <-]. by exists nerr. }
  assert (Hstr : forall name def err,
    getEnvStr environ name def true = inl err ->
    Getenv environ name = ""
    /\ err = ErrorF "configuration required: %s" [name]).
  { intros name def err. unfold getEnvStr.
    destruct (decide (Getenv environ name = "")); [|done].
    by intros [= <-]. }
  unfold getEnv.
  destruct (getEnvInt NumError_Error environ "CLUSTER_PORT" "8082" false)
    as [e1|cp] eqn:Hcp.
  { intros [= <-]. right.
    destruct (Hint _ _ _ _ Atoi_8082 Hcp) as (nerr & ? & ? & ?).
    exists "CLUSTER_PORT", nerr. repeat split; try done. repeat constructor. }
  destruct (getEnvInt NumError_Error environ "REST_PORT" "8080" false)
    as [e1|rp] eqn:Hrp.
  { intros [= <-]. right.
    destruct (Hint _ _ _ _ Atoi_8080 Hrp) as (nerr & ? & ? & ?).
    exists "REST_PORT", nerr. repeat split; try done. repeat constructor. }
  destruct (getEnvInt NumError_Error environ "GRPC_PORT" "8081" false)
    as [e1|gp] eqn:Hgp.
  { intros [= <-]. right.
    destruct (Hint _ _ _ _ Atoi_8081 Hgp) as (nerr & ? & ? & ?).
    exists "GRPC_PORT", nerr. repeat split; try done. repeat constructor. }
  destruct (getEnvStr environ "WORK_DIR" "" true) as [e1|wd] eqn:Hwd.
  { intros [= <-]. left. destruct (Hstr _ _ _ Hwd).
    exists "WORK_DIR". repeat split; try done. repeat constructor. }
  destruct (getEnvStrSlice TrimSpace environ "SEARCH_NODES" "" true)
    as [e1|sn] eqn:Hsn.
  { intros [= <-]. left. unfold getEnvStrSlice in Hsn.
    destruct (getEnvStr environ "SEARCH_NODES" "" true) as [e2|?] eqn:Hs;
      [|done].
    injection Hsn as <-. destruct (Hstr _ _ _ Hs).
    exists "SEARCH_NODES". repeat split; try done. repeat constructor. }
  destruct (getEnvStr environ "RULES_REPOSITORY" "" true) as [e1|rr] eqn:Hrr.
  { intros [= <-]. left. destruct (Hstr _ _ _ Hrr).
    exists "RULES_REPOSITORY". repeat split; try done. repeat constructor. }
  destruct (getEnvInt NumError_Error environ "LOG_LEVEL" "200" false)
    as [e1|ll] eqn:Hll; [|done].
  intros [= <-]. right.
  destruct (Hint _ _ _ _ Atoi_200 Hll) as (nerr & ? & ? & ?).
  exists "LOG_LEVEL", nerr. repeat split; try done. repeat constructor.
Qed.

End HelpersProperties.

(** * The merged configuration *)

Section ConfigProperties.

Import Config.

Context {Pipeline PluginSettings Env : Type}.

Variable getEnv : option Env.
Variable Workdir : Env -> string.
Variable path_Join : string -> string -> string.
Variable ListFiles : string -> string -> list string.
Variable ReadYAML : string -> option (Config Pipeline PluginSettings Env).
Variable zeroEnv : Env.

Local Abbreviation entry name := (fun m : gmap string _ => m !! name).

Local Abbreviation later name field :=
  (fun acc n =>
     match field n ≫= entry name with
     | Some p => Some p
     | None => acc
     end).

(** The range loop gives the union whatever the order of the range. *)
Lemma foldr_insert_union {V} (old : gmap string V) (l : list (string * V)) :
  foldr (fun kv acc => <[kv.1 := kv.2]> acc) old l = list_to_map l ∪ old.
Proof.
  induction l as [|[k v] l IH]; simpl.
  - by rewrite (left_id_L ∅ (∪)).
  - by rewrite IH, insert_union_l.
Qed.

Lemma assign_panics {V} (dst src : option (gmap string V)) :
  assign dst src = None <-> dst = None /\ filled src.
Proof.
  unfold assign, filled. destruct src as [new|].
  - destruct (decide (new = ∅)) as [->|Hne].
    + split; [done|]. by intros [_ (m & [= <-] & Hm)].
    + destruct dst; split; try done.
      * by intros [[=] _].
      * intros _. split; [done|]. by exists new.
  - split; [done|]. by intros [_ (m & [=] & _)].
Qed.

Lemma assign_returns {V} (dst src dst' : option (gmap string V)) :
  assign dst src = Some dst' ->
  (dst' = None <-> dst = None)
  /\ forall name,
       dst' ≫= entry name
       = match src ≫= entry name with
         | Some p => Some p
         | None => dst ≫= entry name
         end.
Proof.
  unfold assign. destruct src as [new|]; simpl.
  - destruct (decide (new = ∅)) as [->|Hne].
    + intros [= <-]. split; [done|]. intros name. by rewrite lookup_empty.
    + destruct dst as [old|]; [|done]. intros [= <-]. split; [done|].
      intros name. simpl.
      rewrite foldr_insert_union, list_to_map_to_list, lookup_union.
      by destruct (new !! name), (old !! name).
  - by intros [= <-].
Qed.

Lemma merge_panics (c n : Config Pipeline PluginSettings Env) :
  merge c n = None
  <-> (Patterns c = None /\ filled (Patterns n))
      \/ (Plugins c = None /\ filled (Plugins n)).
Proof.
  unfold merge. destruct (assign (Patterns c) (Patterns n)) eqn:Hp.
  - destruct (assign (Plugins c) (Plugins n)) eqn:Hq.
    + split; [done|]. intros [Hx|Hx]; apply assign_panics in Hx; congruence.
    + split; [|done]. intros _. right. by apply assign_panics.
  - split; [|done]. intros _. left. by apply assign_panics.
Qed.

Lemma merge_returns (c n c' : Config Pipeline PluginSettings Env) :
  merge c n = Some c' ->
  Pipeline_ c' = Pipeline_ c ++ Pipeline_ n
  /\ DisabledRules c' = DisabledRules c ++ DisabledRules n
  /\ Tenants c' = Tenants c ++ Tenants n
  /\ Env_ c' = Env_ c
  /\ (Patterns c' = None <-> Patterns c = None)
  /\ (Plugins c' = None <-> Plugins c = None)
  /\ (forall name, Patterns c' ≫= entry name
                   = later name Patterns (Patterns c ≫= entry name) n)
  /\ (forall name, Plugins c' ≫= entry name
                   = later name Plugins (Plugins c ≫= entry name) n).
Proof.
  unfold merge. destruct (assign (Patterns c) (Patterns n)) eqn:Hp; [|done].
  destruct (assign (Plugins c) (Plugins n)) eqn:Hq; [|done].
  intros [= <-]. simpl.
  apply assign_returns in Hp as [? ?]. apply assign_returns in Hq as [? ?].
  done.
Qed.

Lemma load_files_panics files (c : Config Pipeline PluginSettings Env) :
  load_files ReadYAML files c = None
  <-> (Patterns c = None
       /\ Exists (fun n => filled (Patterns n)) (omap ReadYAML files))
      \/ (Plugins c = None
          /\ Exists (fun n => filled (Plugins n)) (omap ReadYAML files)).
Proof.
  revert c. induction files as [|f files IH]; intros c; simpl.
  - split; [done|]. intros [[_ Hx]|[_ Hx]]; by apply Exists_nil in Hx.
  - destruct (ReadYAML f) as [n|] eqn:Hn; [|apply IH].
    rewrite !Exists_cons. pose proof (merge_panics c n) as Hmp.
    destruct (merge c n) as [c'|] eqn:Hm.
    + rewrite IH.
      apply merge_returns in Hm as (_ & _ & _ & _ & Hp & Hq & _).
      assert (~ ((Patterns c = None /\ filled (Patterns n))
                 \/ (Plugins c = None /\ filled (Plugins n)))) as Hno
        by (intros Hx; by apply Hmp in Hx).
      tauto.
    + split; [|done]. intros _. destruct Hmp as [Hmp _].
      destruct (Hmp eq_refl) as [[? ?]|[? ?]]; tauto.
Qed.

Lemma load_files_returns files (c c' : Config Pipeline PluginSettings Env) :
  load_files ReadYAML files c = Some c' ->
  Pipeline_ c' = Pipeline_ c ++ concat (map Pipeline_ (omap ReadYAML files))
  /\ DisabledRules c'
     = DisabledRules c ++ concat (map DisabledRules (omap ReadYAML files))
  /\ Tenants c' = Tenants c ++ concat (map Tenants (omap ReadYAML files))
  /\ Env_ c' = Env_ c
  /\ (Patterns c' = None <-> Patterns c = None)
  /\ (Plugins c' = None <-> Plugins c = None)
  /\ (forall name,
        Patterns c' ≫= entry name
        = fold_left (later name Patterns) (omap ReadYAML files)
            (Patterns c ≫= entry name))
  /\ (forall name,
        Plugins c' ≫= entry name
        = fold_left (later name Plugins) (omap ReadYAML files)
            (Plugins c ≫= entry name)).
Proof.
  revert c. induction files as [|f files IH]; intros c; simpl.
  - intros [= <-]. by rewrite !app_nil_r.
  - destruct (ReadYAML f) as [n|] eqn:Hn; [|apply IH].
    destruct (merge c n) as [c1|] eqn:Hm; [|done]. intros Hl.
    apply IH in Hl as (-> & -> & -> & -> & Hp & Hq & Hpat & Hplu).
    apply merge_returns in Hm
      as (-> & -> & -> & -> & Hp1 & Hq1 & Hpat1 & Hplu1).
    simpl. rewrite <- !app_assoc.
    repeat split; try tauto.
    + intros name. by rewrite Hpat, Hpat1.
    + intros name. by rewrite Hplu, Hplu1.
Qed.

(** X15: [updateCfg] stores a configuration whenever [getEnv] returns: the
    two maps it merges into are made before the files are read, so no file,
    unreadable or not, makes it panic; it panics only when [getEnv] does. *)
Theorem updateCfg_panics_iff_getEnv_panics :
  updateCfg getEnv Workdir path_Join ListFiles ReadYAML zeroEnv = None
  <-> getEnv = None.
Proof.
  unfold updateCfg, loadCfg. destruct getEnv as [env|]; [|done].
  match goal with
  | |- context [load_files ?r ?fs ?c] =>
      pose proof (load_files_panics fs c) as Hp;
      destruct (load_files r fs c)
  end; [done|].
  destruct Hp as [Hp _]. by destruct (Hp eq_refl) as [[[=] _]|[[=] _]].
Qed.

(** X16: the configuration [updateCfg] stores holds what [getEnv] returned
    and, of the files of the pipeline directory that could be read, in the
    order they are listed: the concatenation of their pipelines, of their
    disabled rules (duplicates kept) and of their tenants, and for every
    pattern name and plugin name the entry of the last file that has one.
    Files that cannot be read are skipped. *)
Theorem updateCfg_merges_files_in_order c :
  updateCfg getEnv Workdir path_Join ListFiles ReadYAML zeroEnv = Some c ->
  let files := read_files getEnv Workdir path_Join ListFiles ReadYAML in
  getEnv = Some (Env_ c)
  /\ Pipeline_ c = concat (map Pipeline_ files)
  /\ DisabledRules c = concat (map DisabledRules files)
  /\ Tenants c = concat (map Tenants files)
  /\ exists patterns plugins,
       Patterns c = Some patterns
       /\ Plugins c = Some plugins
       /\ (forall name, patterns !! name = last_pattern name files)
       /\ (forall name, plugins !! name = last_plugin name files).
Proof.
  unfold updateCfg, loadCfg, read_files, last_pattern, last_plugin.
  destruct getEnv as [env|]; [|done].
  match goal with
  | |- context [load_files ?r ?fs ?c] =>
      destruct (load_files r fs c) as [c'|] eqn:Hl; [|done]
  end.
  intros [= <-]. simpl.
  apply load_files_returns in Hl
    as (-> & -> & -> & _ & Hp & Hq & Hpat & Hplu). simpl in *.
  repeat split; try done.
  destruct (Patterns c') as [patterns|] eqn:Hpc; [|by destruct Hp as [Hp _];
    specialize (Hp eq_refl)].
  destruct (Plugins c') as [plugins|] eqn:Hqc; [|by destruct Hq as [Hq _];
    specialize (Hq eq_refl)].
  exists patterns, plugins. repeat split; try done.
Qed.

(** X17: [loadCfg] on any receiver: it panics exactly when [getEnv] panics,
    or the receiver's pattern map is nil and a file that was read has a
    pattern, or the receiver's plugin map is nil and a file that was read
    has a plugin.  A nil map is ranged over without harm but not assigned
    into. *)
Theorem loadCfg_panics_iff c :
  loadCfg getEnv Workdir path_Join ListFiles ReadYAML c = None
  <-> getEnv = None
      \/ (Patterns c = None
          /\ Exists (fun n => filled (Patterns n))
               (read_files getEnv Workdir path_Join ListFiles ReadYAML))
      \/ (Plugins c = None
          /\ Exists (fun n => filled (Plugins n))
               (read_files getEnv Workdir path_Join ListFiles ReadYAML)).
Proof.
  unfold loadCfg, read_files. destruct getEnv as [env|].
  - match goal with
    | |- context [load_files ?r ?fs ?c] =>
        pose proof (load_files_panics fs c) as Hp;
        destruct (load_files r fs c)
    end.
    + split; [done|]. intros [?|Hx]; [done|]. by apply Hp in Hx.
    + split; [|done]. intros _. right. by apply Hp.
  - split; [|done]. intros _. by left.
Qed.

(** X18: when [loadCfg] returns, the receiver's own content is kept: the
    lists of the files are appended to the receiver's, an entry of the
    receiver's maps stays unless a file has the name, a nil map stays nil,
    and the environment is replaced by what [getEnv] returns. *)
Theorem loadCfg_keeps_receiver c c' :
  loadCfg getEnv Workdir path_Join ListFiles ReadYAML c = Some c' ->
  let files := read_files getEnv Workdir path_Join ListFiles ReadYAML in
  getEnv = Some (Env_ c')
  /\ Pipeline_ c' = Pipeline_ c ++ concat (map Pipeline_ files)
  /\ DisabledRules c' = DisabledRules c ++ concat (map DisabledRules files)
  /\ Tenants c' = Tenants c ++ concat (map Tenants files)
  /\ (Patterns c' = None <-> Patterns c = None)
  /\ (Plugins c' = None <-> Plugins c = None)
  /\ (forall name,
        Patterns c' ≫= entry name
        = match last_pattern name files with
          | Some p => Some p
          | None => Patterns c ≫= entry name
          end)
  /\ (forall name,
        Plugins c' ≫= entry name
        = match last_plugin name files with
          | Some p => Some p
          | None => Plugins c ≫= entry name
          end).
Proof.
  assert (Hfold : forall {V} (field : Config Pipeline PluginSettings Env
                                      -> option (gmap string V))
                    name files acc,
    fold_left (later name field) files acc
    = match fold_left (later name field) files None with
      | Some p => Some p
      | None => acc
      end).
  { intros V field name files.
    induction files as [|n files IH]; intros acc; simpl; [done|].
    rewrite IH. rewrite (IH (match _ with Some p => Some p | None => None end)).
    destruct (fold_left _ files None); [done|].
    by destruct (field n ≫= entry name). }
  unfold loadCfg, read_files, last_pattern, last_plugin.
  destruct getEnv as [env|]; [|done].
  match goal with
  | |- context [load_files ?r ?fs ?c] =>
      destruct (load_files r fs c) as [c1|] eqn:Hl; [|done]
  end.
  intros [= <-]. simpl.
  apply load_files_returns in Hl
    as (-> & -> & -> & _ & Hp & Hq & Hpat & Hplu).
  repeat split; try tauto.
  - intros name. rewrite Hpat. apply Hfold.
  - intros name. rewrite Hplu. apply Hfold.
Qed.

End ConfigProperties.

(** * Requests and downloads *)

Section DoReqProperties.

Import Net.

Context {response Request Body : Type}.

Variable zero : response.
Variable NewRequest : string -> string -> string -> string + Request.
Variable Header_Add : Request -> string -> string -> Request.
Variable range_headers : gmap string string -> list (string * string).
Variable client_Do : Request -> string + Response Body.
Variable ReadAll : Body -> string * option string.
Variable Unmarshal : string -> response -> response * option string.

Local Abbreviation DoReq_ :=
  (DoReq zero NewRequest Header_Add range_headers client_Do ReadAll
     Unmarshal).

Local Abbreviation path_ :=
  (path zero NewRequest Header_Add range_headers client_Do ReadAll Unmarshal).

Local Abbreviation with_headers_ := (with_headers Header_Add range_headers).

Lemma DoReq_path url data method headers :
  path_ url data method headers
    (DoReq_ url data method headers).1 (DoReq_ url data method headers).2.
Proof.
  unfold DoReq, DoReq_body. fold (with_headers_ headers).
  destruct (maxRequestSize <? Z.of_nat (String.length data))%Z eqn:Hsize;
    simpl.
  { apply too_large. lia. }
  destruct (NewRequest method url data) as [e|req] eqn:Hreq; simpl.
  { apply not_created; [lia|done]. }
  fold (with_headers_ headers req).
  destruct (client_Do (with_headers_ headers req)) as [e|resp] eqn:Hdo; simpl.
  { by eapply not_sent. }
  destruct (ReadAll (Body_ resp)) as [body [e|]] eqn:Hread; simpl.
  { by eapply not_read. }
  destruct (400 <=? StatusCode resp)%Z eqn:Hcode; simpl.
  { eapply refused; eauto. lia. }
  destruct (decide (StatusCode resp = StatusNoContent)) as [H204|H204]; simpl.
  { rewrite H204. by eapply no_content. }
  destruct (Unmarshal body zero) as [res [e|]] eqn:Hun; simpl.
  - eapply not_decoded; eauto. lia.
  - eapply decoded; eauto. lia.
Qed.

Lemma DoReq_too_large url data method headers :
  (maxRequestSize < Z.of_nat (String.length data))%Z ->
  DoReq_ url data method headers
  = ([], {| result := zero; status := 413;
            err := Some "request too large" |}).
Proof.
  intros Hbig. unfold DoReq, DoReq_body.
  destruct (maxRequestSize <? Z.of_nat (String.length data))%Z eqn:Hsize;
    [done|lia].
Qed.

(** X19: the error [DoReq] returns is nil exactly when the status it
    returns is below 400: every failure of its own is reported as 413 or
    500, and a status of 400 or more sent by the server comes with an
    error. *)
Theorem DoReq_error_iff_status url data method headers :
  let r := (DoReq zero NewRequest Header_Add range_headers client_Do ReadAll
              Unmarshal url data method headers).2 in
  err r = None <-> (status r < 400)%Z.
Proof.
  cbv zeta. destruct (DoReq_path url data method headers); simpl; split;
    first [done | lia | idtac].
Qed.

(** X20: [DoReq] sends at most one request, with every header added, and
    none at all when the data is longer than 1048576 bytes (the status is
    then 413 and the request is not even built) or when the request cannot
    be built. *)
Theorem DoReq_sends_at_most_once url data method headers :
  let reply := DoReq zero NewRequest Header_Add range_headers client_Do
                 ReadAll Unmarshal url data method headers in
  let sent := reply.1 in
  ((maxRequestSize < Z.of_nat (String.length data))%Z
   \/ (exists e, NewRequest method url data = inl e)
   <-> sent = [])
  /\ (sent = []
      \/ exists req, NewRequest method url data = inr req
                     /\ sent = [Call_Do (with_headers Header_Add
                                            range_headers headers req)])
  /\ ((maxRequestSize < Z.of_nat (String.length data))%Z
      <-> status reply.2 = 413%Z /\ sent = []).
Proof.
  simpl.
  destruct (decide (maxRequestSize < Z.of_nat (String.length data))%Z)
    as [Hbig|Hsmall].
  { rewrite (DoReq_too_large _ _ _ _ Hbig). simpl. repeat split; auto. }
  destruct (DoReq_path url data method headers) as
    [Hs|e Hs Hn|req e Hn|req resp p e Hn|req resp b Hn|req resp b Hn
    |req resp b res e Hn|req resp b res Hn]; simpl.
  all: repeat split; simpl; eauto; try lia; try done;
    try (by intros [? ?]);
    try (intros [?|[? ?]]; [lia|congruence]).
Qed.

(** X21: [DoReq] returns the zero value of the response type unless it
    decoded the body of a response with a status below 400 other than 204;
    the value is then whatever [json.Unmarshal] left in it, also when the
    decoding failed, in which case the status returned is 500 and not the
    status of the response. *)
Theorem DoReq_result_is_zero_unless_decoded url data method headers :
  let r := (DoReq zero NewRequest Header_Add range_headers client_Do ReadAll
              Unmarshal url data method headers).2 in
  result r = zero
  \/ exists req resp body e,
       NewRequest method url data = inr req
       /\ client_Do (with_headers Header_Add range_headers headers req)
          = inr resp
       /\ ReadAll (Body_ resp) = (body, None)
       /\ (StatusCode resp < 400)%Z /\ StatusCode resp <> 204%Z
       /\ Unmarshal body zero = (result r, e)
       /\ status r = match e with
                      | Some _ => 500%Z
                      | None => StatusCode resp
                      end
       /\ err r
          = option_map (fun m => "error unmarshalling response: " +:+ m) e.
Proof.
  simpl.
  destruct (DoReq_path url data method headers) as
    [Hs|e Hs Hn|req e Hn|req resp p e Hn|req resp b Hn|req resp b Hn
    |req resp b res e Hn|req resp b res Hn]; simpl; auto.
  - right. exists req, resp, b, (Some e). by repeat split.
  - right. exists req, resp, b, None. by repeat split.
Qed.

End DoReqProperties.

Section DownloadProperties.

Import Net.

Context {Body : Type}.

Variable create_error : gmap string string -> string -> option string.
Variable Copy : Body -> string * option string.

(** X22: [Download] changes no file but the one it is given, and makes at
    most one request, to the URL it is given; when the file cannot be
    created it makes no request, changes nothing and returns an error. *)
Theorem Download_touches_only_the_file client_Get files url file :
  let r := Download create_error client_Get Copy files url file in
  (forall other, other <> file -> r.1.1 !! other = files !! other)
  /\ (r.1.2 = [] \/ r.1.2 = [Call_Get url])
  /\ (r.1.2 = [] <-> is_Some (create_error files file))
  /\ (r.1.2 = [] -> r.1.1 = files /\ is_Some r.2).
Proof.
  simpl. unfold Download.
  destruct (create_error files file) as [e|]; simpl;
    [|destruct (client_Get url) as [e|resp]; simpl;
      [|destruct (Copy (Body_ resp)) as [written [e|]]; simpl]].
  all: repeat split; eauto; try done;
    try (intros other Hne; by rewrite ?lookup_insert_ne);
    try (by intros [? [=]]).
Qed.

(** X23: once the file could be created, its former content is lost
    whatever happens next: when the request fails the file is left empty
    and an error is returned; otherwise the file holds what was copied from
    the body, all of it or, with an error, the part written before the copy
    failed. *)
Theorem Download_replaces_the_content client_Get files url file :
  create_error files file = None ->
  let r := Download create_error client_Get Copy files url file in
  match client_Get url with
  | inl e => r.1.1 !! file = Some "" /\ is_Some r.2
  | inr resp =>
      r.1.1 !! file = Some (Copy (Body_ resp)).1
      /\ (r.2 = None <-> (Copy (Body_ resp)).2 = None)
  end.
Proof.
  intros Hc. simpl. unfold Download. rewrite Hc.
  destruct (client_Get url) as [e|resp]; simpl.
  { by rewrite lookup_insert_eq. }
  destruct (Copy (Body_ resp)) as [written [e|]]; simpl;
    by rewrite lookup_insert_eq.
Qed.

(** X24: [Download] never looks at the status of the response: two
    responses with the same body give the same file and the same error, so
    the body of a 404 or 500 answer is saved and nil is returned. *)
Theorem Download_ignores_the_status client_Get client_Get' resp resp'
    files url file :
  client_Get url = inr resp ->
  client_Get' url = inr resp' ->
  Body_ resp = Body_ resp' ->
  Download create_error client_Get Copy files url file
  = Download create_error client_Get' Copy files url file.
Proof.
  intros Hg Hg' Hb. unfold Download. by rewrite Hg, Hg', Hb.
Qed.

End DownloadProperties.

(** * Runs on concrete environments, files and servers *)

(** An environment with the required variables and one bad port. *)
Definition staging : gmap string string :=
  {[ "WORK_DIR" := "/w"; "SEARCH_NODES" := "n1, n2,";
     "RULES_REPOSITORY" := "git"; "GRPC_PORT" := "+9000" ]}.

Definition staging_env : Helpers.Env :=
  {| Helpers.ClusterPort := 8082; Helpers.RestPort := 8080;
     Helpers.GrpcPort := 9000; Helpers.Workdir := "/w";
     Helpers.RulesRepository := "git";
     Helpers.SearchNodes := ["n1"; "n2"; ""]; Helpers.LogLevel := 200 |}.

Definition bad_port : gmap string string := <[ "REST_PORT" := "80a" ]> staging.

(** REST_PORT is 80a: the default is not used and the number error is the
    same with another default and with the variable required. *)
Lemma getEnvInt_no_fallback_witness :
  Helpers.getEnvInt Helpers.NumError_message bad_port "REST_PORT" "8080" false
  = Helpers.getEnvInt Helpers.NumError_message bad_port "REST_PORT" "1" true
  /\ (forall err,
        Helpers.Atoi (Helpers.Getenv bad_port "REST_PORT") = inl err ->
        Helpers.getEnvInt Helpers.NumError_message bad_port "REST_PORT"
          "8080" false
        = inl (Helpers.ErrorF (Helpers.NumError_message err) [])).
Proof.
  apply (getEnvInt_no_fallback Helpers.NumError_message bad_port
           "REST_PORT" "8080" "1" false true).
  vm_compute. discriminate.
Defined.

(** The text with a comma at its end gives three nodes, the last empty. *)
Lemma getEnvStrSlice_items_witness :
  exists str pieces,
    Helpers.getEnvStr staging "SEARCH_NODES" "" true = inr str
    /\ ["n1"; "n2"; ""] = map Helpers.TrimSpace_ascii pieces
    /\ Helpers.Join pieces "," = str
    /\ Forall (fun p => Helpers.count_char "," p = 0) pieces
    /\ length ["n1"; "n2"; ""] = S (Helpers.count_char "," str).
Proof.
  apply (getEnvStrSlice_items Helpers.TrimSpace_ascii staging
           "SEARCH_NODES" "" true ["n1"; "n2"; ""]).
  vm_compute. reflexivity.
Defined.

(** The record of the staging environment: two ports and the log level by
    default, the third port read with its sign. *)
Lemma getEnv_record_witness :
  (Helpers.Atoi (Helpers.effective staging "CLUSTER_PORT" "8082")
   = inr (Helpers.ClusterPort staging_env)
   /\ (Helpers.Getenv staging "CLUSTER_PORT" = "" ->
       Helpers.ClusterPort staging_env = 8082%Z))
  /\ (Helpers.Atoi (Helpers.effective staging "REST_PORT" "8080")
      = inr (Helpers.RestPort staging_env)
      /\ (Helpers.Getenv staging "REST_PORT" = "" ->
          Helpers.RestPort staging_env = 8080%Z))
  /\ (Helpers.Atoi (Helpers.effective staging "GRPC_PORT" "8081")
      = inr (Helpers.GrpcPort staging_env)
      /\ (Helpers.Getenv staging "GRPC_PORT" = "" ->
          Helpers.GrpcPort staging_env = 8081%Z))
  /\ (Helpers.Atoi (Helpers.effective staging "LOG_LEVEL" "200")
      = inr (Helpers.LogLevel staging_env)
      /\ (Helpers.Getenv staging "LOG_LEVEL" = "" ->
          Helpers.LogLevel staging_env = 200%Z))
  /\ Forall (fun n => - 2 ^ 63 <= n <= 2 ^ 63 - 1)%Z
       [Helpers.ClusterPort staging_env; Helpers.RestPort staging_env;
        Helpers.GrpcPort staging_env; Helpers.LogLevel staging_env]
  /\ (Helpers.Workdir staging_env = Helpers.Getenv staging "WORK_DIR"
      /\ Helpers.Workdir staging_env <> "")
  /\ (Helpers.RulesRepository staging_env
      = Helpers.Getenv staging "RULES_REPOSITORY"
      /\ Helpers.RulesRepository staging_env <> "")
  /\ Helpers.SearchNodes staging_env
     = map Helpers.TrimSpace_ascii
         (Helpers.Split (Helpers.Getenv staging "SEARCH_NODES") ",")
  /\ length (Helpers.SearchNodes staging_env)
     = S (Helpers.count_char "," (Helpers.Getenv staging "SEARCH_NODES")).
Proof.
  apply (getEnv_record Helpers.TrimSpace_ascii Helpers.NumError_message
           staging staging_env).
  vm_compute. reflexivity.
Defined.

(** With REST_PORT set to 80a, [getEnv] panics with the number error of
    that text. *)
Lemma getEnv_panic_names_a_variable_witness :
  let e := Helpers.ErrorF
             (Helpers.NumError_message
                {| Helpers.Num := "80a"; Helpers.Err := Helpers.ErrSyntax |})
             [] in
  (exists name,
      name ∈ ["WORK_DIR"; "SEARCH_NODES"; "RULES_REPOSITORY"]
      /\ Helpers.Getenv bad_port name = ""
      /\ e = Helpers.ErrorF "configuration required: %s" [name])
  \/ (exists name err,
      name ∈ ["CLUSTER_PORT"; "REST_PORT"; "GRPC_PORT"; "LOG_LEVEL"]
      /\ Helpers.Getenv bad_port name <> ""
      /\ Helpers.Atoi (Helpers.Getenv bad_port name) = inl err
      /\ e = Helpers.ErrorF (Helpers.NumError_message err) []).
Proof.
  apply (getEnv_panic_names_a_variable Helpers.TrimSpace_ascii
           Helpers.NumError_message bad_port).
  vm_compute. reflexivity.
Defined.

(** A pipeline directory of three files, the second of which cannot be
    read; the environment is kept by its work directory. *)
Definition pipeline_a : Config.Config string Z string :=
  {| Config.Pipeline_ := ["parse"]; Config.DisabledRules := [7%Z];
     Config.Tenants := []; Config.Patterns := Some {[ "ip" := "a" ]};
     Config.Plugins := None; Config.Env_ := "" |}.

Definition pipeline_b : Config.Config string Z string :=
  {| Config.Pipeline_ := ["enrich"]; Config.DisabledRules := [7%Z; 9%Z];
     Config.Tenants := [];
     Config.Patterns := Some {[ "ip" := "b"; "host" := "h" ]};
     Config.Plugins := Some {[ "geo" := 1%Z ]}; Config.Env_ := "" |}.

Definition pipeline_ListFiles (dir ext : string) : list string :=
  [dir +:+ "/a" +:+ ext; dir +:+ "/broken" +:+ ext; dir +:+ "/b" +:+ ext].

Definition pipeline_Join (a b : string) : string := a +:+ "/" +:+ b.

Definition pipeline_ReadYAML (f : string)
  : option (Config.Config string Z string) :=
  if decide (f = "/w/pipeline/a.yaml") then Some pipeline_a
  else if decide (f = "/w/pipeline/b.yaml") then Some pipeline_b
  else None.

Definition pipeline_merged : Config.Config string Z string :=
  {| Config.Pipeline_ := ["parse"; "enrich"];
     Config.DisabledRules := [7%Z; 7%Z; 9%Z];
     Config.Tenants := [];
     Config.Patterns := Some {[ "ip" := "b"; "host" := "h" ]};
     Config.Plugins := Some {[ "geo" := 1%Z ]}; Config.Env_ := "/w" |}.

(** The two readable files merged: rule 7 twice, the pattern ip of the
    second file. *)
Lemma updateCfg_merges_files_in_order_witness :
  let files :=
    Config.read_files (Some "/w") id pipeline_Join pipeline_ListFiles
      pipeline_ReadYAML in
  Some "/w" = Some (Config.Env_ pipeline_merged)
  /\ Config.Pipeline_ pipeline_merged = concat (map Config.Pipeline_ files)
  /\ Config.DisabledRules pipeline_merged
     = concat (map Config.DisabledRules files)
  /\ Config.Tenants pipeline_merged = concat (map Config.Tenants files)
  /\ exists patterns plugins,
       Config.Patterns pipeline_merged = Some patterns
       /\ Config.Plugins pipeline_merged = Some plugins
       /\ (forall name, patterns !! name = Config.last_pattern name files)
       /\ (forall name, plugins !! name = Config.last_plugin name files).
Proof.
  apply (updateCfg_merges_files_in_order (Some "/w") id pipeline_Join
           pipeline_ListFiles pipeline_ReadYAML "" pipeline_merged).
  vm_compute. reflexivity.
Defined.

(** A receiver that already holds a pipeline and a pattern: both are kept,
    ahead of what the files bring. *)
Definition pipeline_receiver : Config.Config string Z string :=
  {| Config.Pipeline_ := ["own"]; Config.DisabledRules := [];
     Config.Tenants := []; Config.Patterns := Some {[ "mac" := "m" ]};
     Config.Plugins := Some ∅; Config.Env_ := "" |}.

Definition pipeline_loaded : Config.Config string Z string :=
  {| Config.Pipeline_ := ["own"; "parse"; "enrich"];
     Config.DisabledRules := [7%Z; 7%Z; 9%Z];
     Config.Tenants := [];
     Config.Patterns := Some {[ "mac" := "m"; "ip" := "b"; "host" := "h" ]};
     Config.Plugins := Some {[ "geo" := 1%Z ]}; Config.Env_ := "/w" |}.

Lemma loadCfg_keeps_receiver_witness :
  let files :=
    Config.read_files (Some "/w") id pipeline_Join pipeline_ListFiles
      pipeline_ReadYAML in
  Some "/w" = Some (Config.Env_ pipeline_loaded)
  /\ Config.Pipeline_ pipeline_loaded
     = Config.Pipeline_ pipeline_receiver ++ concat (map Config.Pipeline_ files)
  /\ Config.DisabledRules pipeline_loaded
     = Config.DisabledRules pipeline_receiver
       ++ concat (map Config.DisabledRules files)
  /\ Config.Tenants pipeline_loaded
     = Config.Tenants pipeline_receiver ++ concat (map Config.Tenants files)
  /\ (Config.Patterns pipeline_loaded = None
      <-> Config.Patterns pipeline_receiver = None)
  /\ (Config.Plugins pipeline_loaded = None
      <-> Config.Plugins pipeline_receiver = None)
  /\ (forall name,
        Config.Patterns pipeline_loaded ≫= (fun m => m !! name)
        = match Config.last_pattern name files with
          | Some p => Some p
          | None => Config.Patterns pipeline_receiver ≫= (fun m => m !! name)
          end)
  /\ (forall name,
        Config.Plugins pipeline_loaded ≫= (fun m => m !! name)
        = match Config.last_plugin name files with
          | Some p => Some p
          | None => Config.Plugins pipeline_receiver ≫= (fun m => m !! name)
          end).
Proof.
  apply (loadCfg_keeps_receiver (Some "/w") id pipeline_Join
           pipeline_ListFiles pipeline_ReadYAML "" pipeline_receiver
           pipeline_loaded).
  vm_compute. reflexivity.
Defined.

(** A server that is down, and two answers with the same body: 200 and
    404.  The body is kept by its text and copied whole. *)
Definition server_down (url : string) : string + Net.Response string :=
  inl "connection refused".

Definition answer_200 : Net.Response string :=
  {| Net.StatusCode := 200; Net.Body_ := "rules" |}.

Definition answer_404 : Net.Response string :=
  {| Net.StatusCode := 404; Net.Body_ := "rules" |}.

Definition copy_whole (body : string) : string * option string :=
  (body, None).

Definition writable (files : gmap string string) (file : string)
  : option string := None.

Definition disk : gmap string string := {[ "rules.yaml" := "old rules" ]}.

(** The server is down: the old rules are gone and the file is empty. *)
Lemma Download_replaces_the_content_witness :
  let r := Net.Download writable server_down copy_whole disk
             "https://rules" "rules.yaml" in
  r.1.1 !! "rules.yaml" = Some "" /\ is_Some r.2.
Proof.
  apply (Download_replaces_the_content writable copy_whole server_down disk
           "https://rules" "rules.yaml").
  reflexivity.
Defined.

(** The body of the 404 answer is saved as the 200 answer's is. *)
Lemma Download_ignores_the_status_witness :
  Net.Download writable (fun _ => inr answer_200) copy_whole disk
    "https://rules" "rules.yaml"
  = Net.Download writable (fun _ => inr answer_404) copy_whole disk
      "https://rules" "rules.yaml".
Proof.
  apply (Download_ignores_the_status writable copy_whole
           (fun _ => inr answer_200) (fun _ => inr answer_404)
           answer_200 answer_404 disk "https://rules" "rules.yaml");
    reflexivity.
Defined.
